(** * mii/client.py: the MII query clients

    A shallow embedding of [MIIClient] (one endpoint) and
    [MIITensorParallelClient] (fan-out over the shards of one model, with
    the non-blocking task queue), followed by the properties of the
    client that the specification states.

    Python values that the client only passes around (request
    dictionaries, keyword arguments, protobuf messages, unpacked
    responses) are opaque; [None] is kept apart because
    [get_pending_task_result] answers [None] for "not ready". *)

From Stdlib Require Import ZArith Lia.
From stdpp Require Import base option list strings gmap pretty.

Open Scope string_scope.
Open Scope list_scope.
Open Scope Z_scope.

(** ** Python values, exceptions, observable effects *)

Inductive value :=
  | VNone
  | VObj (repr : string).

Global Instance value_eq_dec : EqDecision value.
Proof. solve_decision. Defined.

Inductive exn :=
  | ValueError (msg : string)
  | IndexError (msg : string)
  | AttributeError (msg : string)
  | TypeError (msg : string)
  | AssertionError (msg : string)
  | InvalidStateError (msg : string)
  | RpcError (msg : string).

(** [str(e)], as the f-strings of the client print it. *)
Definition str_exn (e : exn) : string :=
  match e with
  | ValueError m | IndexError m | AttributeError m | TypeError m
  | AssertionError m | InvalidStateError m | RpcError m => m
  end.

(** What a Python call yields: an exception raised, or a value returned. *)
Definition outcome (A : Type) : Type := exn + A.

(** A gRPC address: the [host] and [port] of [create_channel]. *)
Definition address : Type := string * Z.

(** The coroutine object that [self._query_in_tensor_parallel(request,
    kwargs)] creates: its arguments and [id(coro)], its identity. *)
Record Coro := {
  coro_id : Z;
  coro_request : value;
  coro_kwargs : value
}.

(** The calls the client makes to its collaborators, the coroutines it
    hands to the event loop and the lines it prints, in the order they
    happen. *)
Inductive event :=
  | CallPack (request_dict query_kwargs : value)
  | CallStub (target : address) (method : string) (proto_request : value)
  | CallUnpack (proto_response : value)
  | RunCoro (c : Coro)
  | Print (line : string).

(** ** The external collaborators *)

(** One entry of [GRPC_METHOD_TABLE] (mii/method_table.py, not part of
    this file): a dict with the keys ["method"],
    ["pack_request_to_proto"] and, for some tasks only,
    ["unpack_response_from_proto"]. *)
Record Conversions := {
  method : string;
  pack_request_to_proto : value -> value -> outcome value;
  unpack_response_from_proto : option (value -> outcome value)
}.

(** What the transport does with one remote call: the reply, or the
    failure, arrives after [delay] further turns of the event loop. *)
Record Reply := {
  delay : nat;
  answer : outcome value
}.

(** The environment of the client: the conversion table, keyed by task,
    and the servers behind the channels. *)
Record Env := {
  GRPC_METHOD_TABLE : gmap string Conversions;
  rpc : address -> string -> value -> Reply
}.

(** ** MIIClient *)

(** [self.stub] is determined by the address its channel was created for;
    [self.task] is what [get_task] returned, by its printed form. *)
Record MIIClient := {
  stub : address;
  task : string
}.

(** A call of [_request_async_response] created as an asyncio task: it is
    finished, or it is suspended at its one [await], waiting for the
    transport. *)
Inductive shard_task :=
  | Done (r : outcome value)
  | InFlight (ticks : nat) (reply : outcome value) (conversions : Conversions).

(** [_request_async_response] up to its [await] (lines 64-70): the
    membership test, the packing and the start of the remote call. *)
Definition request_start (env : Env) (self : MIIClient)
    (request_dict query_kwargs : value) : list event * shard_task :=
  match GRPC_METHOD_TABLE env !! task self with
  | None => ([], Done (inl (ValueError ("unknown task: " +:+ task self))))
  | Some conversions =>
      match pack_request_to_proto conversions request_dict query_kwargs with
      | inl e => ([CallPack request_dict query_kwargs], Done (inl e))
      | inr proto_request =>
          let reply := rpc env (stub self) (method conversions) proto_request in
          ([CallPack request_dict query_kwargs;
            CallStub (stub self) (method conversions) proto_request],
           InFlight (delay reply) (answer reply) conversions)
      end
  end.

(** [_request_async_response] from its [await] on (lines 70-73): the
    transport's failure is raised, its reply is unpacked when the entry
    has an ["unpack_response_from_proto"] and returned as it is
    otherwise. *)
Definition request_finish (reply : outcome value) (conversions : Conversions)
    : list event * outcome value :=
  match reply with
  | inl e => ([], inl e)
  | inr proto_response =>
      match unpack_response_from_proto conversions with
      | Some unpack => ([CallUnpack proto_response], unpack proto_response)
      | None => ([], inr proto_response)
      end
  end.

(** What a task yields once it is left to finish. *)
Definition complete (t : shard_task) : list event * outcome value :=
  match t with
  | Done r => ([], r)
  | InFlight _ reply conversions => request_finish reply conversions
  end.

(** [_request_async_response] run to its end, as [MIIClient.query] runs
    it: the calls made and what it returns or raises. *)
Definition _request_async_response (env : Env) (self : MIIClient)
    (request_dict query_kwargs : value) : list event * outcome value :=
  let '(ev, t) := request_start env self request_dict query_kwargs in
  let '(ev', r) := complete t in
  (ev ++ ev', r).

Definition MIIClient_query (env : Env) (self : MIIClient)
    (request_dict query_kwargs : value) : list event * outcome value :=
  _request_async_response env self request_dict query_kwargs.

(** ** The asyncio event loop, as far as the client uses it *)

(** One turn of the loop for one task: a task whose reply has arrived is
    resumed and runs to its end, another one waits on. *)
Definition tick (t : shard_task) : list event * shard_task :=
  match t with
  | Done r => ([], Done r)
  | InFlight O reply conversions =>
      let '(ev, r) := request_finish reply conversions in (ev, Done r)
  | InFlight (S n) reply conversions => ([], InFlight n reply conversions)
  end.

Fixpoint tick_all (ts : list shard_task) : list event * list shard_task :=
  match ts with
  | [] => ([], [])
  | t :: ts' =>
      let '(ev, t') := tick t in
      let '(ev', ts'') := tick_all ts' in
      (ev ++ ev', t' :: ts'')
  end.

Definition is_done (t : shard_task) : bool :=
  match t with Done _ => true | InFlight _ _ _ => false end.

(** The turns the loop takes before the task is done. *)
Definition turns_left (t : shard_task) : nat :=
  match t with Done _ => O | InFlight n _ _ => S n end.

(** The loop turns until the first task of [ts], the awaited one, is
    done; every task of the loop advances meanwhile. The few turns
    asyncio still takes to hand the result back, in which the other tasks
    may advance further, are left out: how far the other tasks have come
    when a call returns is not something to read off this definition. *)
Fixpoint run_loop (fuel : nat) (ts : list shard_task)
    : list event * list shard_task :=
  match ts, fuel with
  | Done _ :: _, _ => ([], ts)
  | _, O => ([], ts)
  | _, S fuel' =>
      let '(ev, ts') := tick_all ts in
      let '(ev', ts'') := run_loop fuel' ts' in
      (ev ++ ev', ts'')
  end.

(** [task.result()] of an asyncio task. *)
Definition result (t : shard_task) : outcome value :=
  match t with
  | Done r => r
  | InFlight _ _ _ => inl (InvalidStateError "Result is not set.")
  end.

(** ** MIITensorParallelClient *)

(** An item of [self.tasks]: [{"id": id(coro), "coro": coro, "run": False}]. *)
Record Task := {
  task_id : Z;
  coro : Coro;
  run : bool
}.

(** An item of [self.results]: [{"id": ..., "result": ...}]. *)
Record Result := {
  result_id : Z;
  result_value : value
}.

Global Instance Coro_eq_dec : EqDecision Coro.
Proof. solve_decision. Defined.
Global Instance Task_eq_dec : EqDecision Task.
Proof. solve_decision. Defined.
Global Instance Result_eq_dec : EqDecision Result.
Proof. solve_decision. Defined.

(** The instance, together with what it shares with the rest of the
    process: the tasks still in flight on [self.asyncio_loop], and the
    trace of the calls made and the lines printed. *)
Record State := {
  clients : list MIIClient;
  tasks : list Task;
  results : list Result;
  running : bool;
  in_flight : list shard_task;
  trace : list event
}.

Definition set_tasks (v : list Task) (s : State) : State :=
  {| clients := clients s; tasks := v; results := results s;
     running := running s; in_flight := in_flight s; trace := trace s |}.
Definition set_results (v : list Result) (s : State) : State :=
  {| clients := clients s; tasks := tasks s; results := v;
     running := running s; in_flight := in_flight s; trace := trace s |}.
Definition set_running (v : bool) (s : State) : State :=
  {| clients := clients s; tasks := tasks s; results := results s;
     running := v; in_flight := in_flight s; trace := trace s |}.
Definition set_in_flight (v : list shard_task) (s : State) : State :=
  {| clients := clients s; tasks := tasks s; results := results s;
     running := running s; in_flight := v; trace := trace s |}.
Definition emit (ev : list event) (s : State) : State :=
  {| clients := clients s; tasks := tasks s; results := results s;
     running := running s; in_flight := in_flight s; trace := trace s ++ ev |}.
Definition print (line : string) (s : State) : State := emit [Print line] s.

(** The loop of lines 119-123: a task is created for the call of every
    client, in the order of [self.clients]; each runs up to its [await]
    when the coroutine suspends. *)
Fixpoint create_tasks (env : Env) (cs : list MIIClient)
    (request_string query_kwargs : value) : list event * list shard_task :=
  match cs with
  | [] => ([], [])
  | client :: cs' =>
      let '(ev, t) := request_start env client request_string query_kwargs in
      let '(ev', ts) := create_tasks env cs' request_string query_kwargs in
      (ev ++ ev', t :: ts)
  end.

(** [self.asyncio_loop.run_until_complete(coro)] for a coroutine of
    [_query_in_tensor_parallel] (lines 117-126): [await responses[0]]
    lets the loop turn until the first task is done and raises what that
    task raised; otherwise the coroutine returns [responses[0]], the task
    itself. The other tasks stay on the loop. With no client,
    [responses[0]] raises IndexError. *)
Definition run_until_complete (env : Env) (c : Coro) (s : State)
    : outcome shard_task * State :=
  let s := emit [RunCoro c] s in
  let '(ev, responses) :=
    create_tasks env (clients s) (coro_request c) (coro_kwargs c) in
  let s := emit ev s in
  match responses with
  | [] => (inl (IndexError "list index out of range"), s)
  | first :: _ =>
      let '(ev', ts) := run_loop (turns_left first) (responses ++ in_flight s) in
      let s := emit ev' s in
      match ts with
      | [] => (inl (IndexError "list index out of range"), s)
      | Done (inl e) :: others =>
          (inl e, set_in_flight (List.filter (fun t => negb (is_done t)) others) s)
      | response :: others =>
          (inr response,
           set_in_flight (List.filter (fun t => negb (is_done t)) others) s)
      end
  end.

(** [query] (lines 128-145). The identity of its coroutine plays no role. *)
Definition query (env : Env) (request_dict query_kwargs : value) (s : State)
    : outcome value * State :=
  let c := {| coro_id := 0; coro_request := request_dict;
              coro_kwargs := query_kwargs |} in
  match run_until_complete env c s with
  | (inl e, s') => (inl e, s')
  | (inr response, s') => (result response, s')
  end.

(** [query_non_block] (lines 147-150). [new_id] is [id(coro)], the
    identity the interpreter gives the coroutine object just created:
    Python promises that it differs from the identity of every object
    alive at that moment, and no more ("two objects with non-overlapping
    lifetimes may have the same id() value"). *)
Definition query_non_block (new_id : Z) (request_dict query_kwargs : value)
    (s : State) : Z * State :=
  let c := {| coro_id := new_id; coro_request := request_dict;
              coro_kwargs := query_kwargs |} in
  (coro_id c,
   set_tasks (tasks s ++ [{| task_id := coro_id c; coro := c; run := false |}]) s).

(** [list.remove(x)]: the first item equal to [x] goes. *)
Fixpoint remove (x : Task) (l : list Task) : list Task :=
  match l with
  | [] => []
  | y :: l' => if decide (y = x) then l' else y :: remove x l'
  end.

(** The lines [get_pending_task_result] prints (lines 162, 165, 172). *)
Definition started_line (t : Task) (queue : nat) : string :=
  pretty (task_id t) +:+ " started, queue=" +:+ pretty queue.
Definition complete_line (t : Task) : string :=
  pretty (task_id t) +:+ " complete".
Definition failed_line (t : Task) (e : exn) : string :=
  pretty (task_id t) +:+ ", " +:+ str_exn e.

Arguments started_line : simpl never.
Arguments complete_line : simpl never.
Arguments failed_line : simpl never.

(** [get_pending_task_result] (lines 152-173); [VNone] is the [None] of
    "not ready". *)
Definition get_pending_task_result (env : Env) (id : Z) (s : State)
    : value * State :=
  match List.find (fun item => bool_decide (result_id item = id)) (results s) with
  | Some r =>
      (result_value r,
       set_results
         (List.filter (fun item => negb (bool_decide (result_id item = id)))
                      (results s)) s)
  | None =>
      if negb (running s) && Nat.ltb 0 (length (tasks s)) then
        match tasks s with
        | [] => (VNone, s)
        | t :: _ =>
            let s := set_running true s in
            let s := print (started_line t (length (tasks s))) s in
            let s := set_tasks (remove t (tasks s)) s in
            match run_until_complete env (coro t) s with
            | (inl e, s) =>
                (VNone, print (failed_line t e) s)
            | (inr response, s) =>
                let s := print (complete_line t) s in
                let s := set_running false s in
                if bool_decide (id = task_id t) then
                  match result response with
                  | inl e =>
                      (VNone, print (failed_line t e) s)
                  | inr v => (v, s)
                  end
                else
                  match result response with
                  | inl e =>
                      (VNone, print (failed_line t e) s)
                  | inr v =>
                      (VNone,
                       set_results
                         (results s ++ [{| result_id := task_id t;
                                           result_value := v |}]) s)
                  end
            end
        end
      else (VNone, s)
  end.

(** ** Construction of a MIITensorParallelClient *)

(** The objects an attribute of the instance can hold. *)
Inductive pyobj :=
  | PInt (n : Z)
  | PBool (b : bool)
  | PTaskKind (t : string)
  | PEventLoop
  | PMethod (name : string)
  | PClients (cs : list MIIClient)
  | PStubs (stubs : list address)
  | PTasks (ts : list Task)
  | PResults (rs : list Result).

(** [self.__dict__]. *)
Abbreviation instance := (gmap string pyobj).

(** The names a lookup finds on the class of the instance: the methods
    the class statement of [MIITensorParallelClient] defines, and what
    every class has, from its class statement and from [object]. No data
    attribute is among them. *)
Definition class_attributes : list string :=
  ["__init__"; "_initialize_grpc_client"; "_query_in_tensor_parallel";
   "query"; "query_non_block"; "get_pending_task_result";
   "__module__"; "__doc__"; "__dict__"; "__weakref__"; "__class__";
   "__delattr__"; "__dir__"; "__eq__"; "__format__"; "__ge__";
   "__getattribute__"; "__getstate__"; "__gt__"; "__hash__";
   "__init_subclass__"; "__le__"; "__lt__"; "__ne__"; "__new__";
   "__reduce__"; "__reduce_ex__"; "__repr__"; "__setattr__"; "__sizeof__";
   "__str__"; "__subclasshook__"].

Definition no_attribute (name : string) : exn :=
  AttributeError
    ("'MIITensorParallelClient' object has no attribute '" +:+ name +:+ "'").

(** [self.name]: the instance first, then the class. *)
Definition getattr (self : instance) (name : string) : outcome pyobj :=
  match self !! name with
  | Some v => inr v
  | None =>
      if bool_decide (name ∈ class_attributes) then inr (PMethod name)
      else inl (no_attribute name)
  end.

Definition bind {A B : Type} (m : outcome A) (k : A -> outcome B) : outcome B :=
  match m with
  | inl e => inl e
  | inr a => k a
  end.

Notation "x <- m ;; k" := (bind m (fun x => k))
  (at level 100, m at next level, right associativity).

(** The integer an object stands for where Python wants one ([range],
    [+] with an int): an int is itself, and a bool is 1 or 0. *)
Definition as_int (o : pyobj) : option Z :=
  match o with
  | PInt n => Some n
  | PBool b => Some (Z.b2z b)
  | _ => None
  end.

(** The body of the loop of [_initialize_grpc_client] (lines 105-114),
    for the values [i] of [range(self.num_gpus)]. *)
Fixpoint open_channels (indices : list Z) (channels : list address)
    (self : instance) : outcome instance :=
  match indices with
  | [] => inr self
  | i :: indices' =>
      port_number <- getattr self "port_number" ;;
      match as_int port_number with
      | Some p =>
          let channel := ("localhost", p + i) in
          stubs <- getattr self "stubs" ;;
          match stubs with
          | PStubs l =>
              open_channels indices' (channels ++ [channel])
                (<["stubs" := PStubs (l ++ [channel])]> self)
          | _ => inl (AttributeError "object has no attribute 'append'")
          end
      | None => inl (TypeError "unsupported operand type(s) for +")
      end
  end.

(** [_initialize_grpc_client] (lines 102-114). *)
Definition _initialize_grpc_client (self : instance) : outcome instance :=
  num_gpus <- getattr self "num_gpus" ;;
  match as_int num_gpus with
  | Some n => open_channels (seqZ 0 n) [] self
  | None => inl (TypeError "object cannot be interpreted as an integer")
  end.

(** [MIIClient.__init__] (lines 57-61). [get_task] is mii.utils.get_task,
    which may reject the name. *)
Definition MIIClient_init (get_task : string -> outcome string)
    (task_name host : string) (port : Z) : outcome MIIClient :=
  t <- get_task task_name ;;
  inr {| stub := (host, port); task := t |}.

(** [[MIIClient(task_name, host, port) for port in ports]]. *)
Fixpoint make_clients (get_task : string -> outcome string)
    (task_name host : string) (ports : list Z) : outcome (list MIIClient) :=
  match ports with
  | [] => inr []
  | port :: ports' =>
      c <- MIIClient_init get_task task_name host port ;;
      cs <- make_clients get_task task_name host ports' ;;
      inr (c :: cs)
  end.

(** Lines 94-96 of [MIITensorParallelClient.__init__]: the attributes
    the instance has when [_initialize_grpc_client] is called. *)
Definition init_attributes (get_task : string -> outcome string)
    (task_name host : string) (ports : list Z) : outcome instance :=
  t <- get_task task_name ;;
  let self : instance := <["task" := PTaskKind t]> ∅ in
  cs <- make_clients get_task task_name host ports ;;
  let self := <["clients" := PClients cs]> self in
  let self := <["asyncio_loop" := PEventLoop]> self in
  inr self.

(** [MIITensorParallelClient.__init__] (lines 93-100). *)
Definition MIITensorParallelClient_init (get_task : string -> outcome string)
    (task_name host : string) (ports : list Z) : outcome instance :=
  self <- init_attributes get_task task_name host ports ;;
  self <- _initialize_grpc_client self ;;
  let self := <["tasks" := PTasks []]> self in
  let self := <["results" := PResults []]> self in
  let self := <["running" := PBool false]> self in
  inr self.

(** The state of the methods above, for an instance whose attributes are
    the ones [__init__] assigns. *)
Definition initial_state (cs : list MIIClient) : State :=
  {| clients := cs; tasks := []; results := []; running := false;
     in_flight := []; trace := [] |}.

(** ** Sequences of calls *)

(** A call of the non-blocking interface. The environment of a poll is
    what the servers do while that poll drives the loop. *)
Inductive op :=
  | Submit (new_id : Z) (request_dict query_kwargs : value)
  | Poll (env : Env) (id : Z).

Inductive reply :=
  | Handle (h : Z)
  | Answer (v : value).

Definition step (o : op) (s : State) : reply * State :=
  match o with
  | Submit new_id request_dict query_kwargs =>
      let '(h, s') := query_non_block new_id request_dict query_kwargs s in
      (Handle h, s')
  | Poll env id =>
      let '(v, s') := get_pending_task_result env id s in
      (Answer v, s')
  end.

Fixpoint run_ops (ops : list op) (s : State) : list reply * State :=
  match ops with
  | [] => ([], s)
  | o :: ops' =>
      let '(r, s') := step o s in
      let '(rs, s'') := run_ops ops' s' in
      (r :: rs, s'')
  end.

(** The identities of the coroutine objects alive in a state: those the
    queue still holds. A coroutine that was run is released when the
    poll that ran it returns. *)
Definition live_ids (s : State) : list Z := task_id <$> tasks s.

(** The identities handed out along [ops] are ones the interpreter may
    hand out: each differs from those of the coroutines then alive. *)
Fixpoint lawful_ids (ops : list op) (s : State) : Prop :=
  match ops with
  | [] => True
  | o :: ops' =>
      match o with
      | Submit new_id _ _ => new_id ∉ live_ids s
      | Poll _ _ => True
      end /\ lawful_ids ops' (snd (step o s))
  end.

(** The coroutines a sequence of calls submits, in order. *)
Definition submitted (ops : list op) : list Coro :=
  flat_map (fun o =>
    match o with
    | Submit new_id request_dict query_kwargs =>
        [{| coro_id := new_id; coro_request := request_dict;
            coro_kwargs := query_kwargs |}]
    | Poll _ _ => []
    end) ops.

(** The handles a sequence of calls returned. *)
Definition handles (rs : list reply) : list Z :=
  flat_map (fun r => match r with Handle h => [h] | Answer _ => [] end) rs.

(** The coroutines that were handed to the event loop, in order. *)
Definition ran (tr : list event) : list Coro :=
  flat_map (fun e => match e with RunCoro c => [c] | _ => [] end) tr.

(** What the fan-out of a request yields by the code's reading of it:
    what the call of the first client yields, IndexError without one. *)
Definition first_shard (env : Env) (cs : list MIIClient)
    (request_dict query_kwargs : value) : outcome value :=
  match cs with
  | [] => inl (IndexError "list index out of range")
  | client :: _ =>
      snd (_request_async_response env client request_dict query_kwargs)
  end.

Definition cached (id : Z) (s : State) : option Result :=
  List.find (fun item => bool_decide (result_id item = id)) (results s).

(** ** Notions used to state the properties *)

(** What running a fan-out coroutine leaves as it was. *)
Definition same_registry (s s' : State) : Prop :=
  clients s' = clients s /\ tasks s' = tasks s /\
  results s' = results s /\ running s' = running s.

(** The event loop hands no coroutine to itself: what the calls of the
    clients add to the trace are calls to the collaborators. *)
Definition is_call (e : event) : bool :=
  match e with
  | CallPack _ _ | CallStub _ _ _ | CallUnpack _ => true
  | RunCoro _ | Print _ => false
  end.

(** The queue item [query_non_block] builds for a coroutine. *)
Definition enqueued (c : Coro) : Task :=
  {| task_id := coro_id c; coro := c; run := false |}.

(** The registry holds nothing under [id]: no queued task and no cached
    result carries it. *)
Definition unknown (id : Z) (s : State) : Prop :=
  (id ∉ live_ids s) /\ (id ∉ result_id <$> results s).

(** ** Concrete deployments, used to run the definitions *)

(** A text-generation entry with no unpacking function, and one with. *)
Definition text_generation : Conversions :=
  {| method := "GeneratorReply";
     pack_request_to_proto := fun request_dict _ => inr request_dict;
     unpack_response_from_proto := None |}.

Definition question_answering : Conversions :=
  {| method := "QuestionAndAnswerReply";
     pack_request_to_proto := fun request_dict _ => inr request_dict;
     unpack_response_from_proto :=
       Some (fun proto_response =>
               match proto_response with
               | VObj repr => inr (VObj ("unpacked:" +:+ repr))
               | VNone => inl (TypeError "no response")
               end) |}.

Definition method_table : gmap string Conversions :=
  {[ "text-generation" := text_generation;
     "question-answering" := question_answering ]}.

(** Two shards: the one on port 50050 answers "hello" after 50 turns,
    the other one answers "hola" after 10. *)
Definition slow_first : Env :=
  {| GRPC_METHOD_TABLE := method_table;
     rpc := fun target _ _ =>
       if bool_decide (snd target = 50050)
       then {| delay := 50; answer := inr (VObj "hello") |}
       else {| delay := 10; answer := inr (VObj "hola") |} |}.

(** Servers that echo the request at once. *)
Definition echo : Env :=
  {| GRPC_METHOD_TABLE := method_table;
     rpc := fun _ _ proto_request =>
       {| delay := 0; answer := inr proto_request |} |}.

(** Servers that refuse the connection. *)
Definition refused : Env :=
  {| GRPC_METHOD_TABLE := method_table;
     rpc := fun _ _ _ =>
       {| delay := 0; answer := inl (RpcError "connection refused") |} |}.

Definition shard (port : Z) : MIIClient :=
  {| stub := ("localhost", port); task := "text-generation" |}.

Definition two_shards : State := initial_state [shard 50050; shard 50051].

(** A [get_task] that knows the two tasks of [method_table]. *)
Definition known_tasks (task_name : string) : outcome string :=
  if bool_decide (task_name ∈ ["text-generation"; "question-answering"])
  then inr task_name
  else inl (AssertionError "Task name should be one of the supported tasks").

Definition queued (id : Z) (request : string) : Task :=
  {| task_id := id;
     coro := {| coro_id := id; coro_request := VObj request;
                coro_kwargs := VObj "{}" |};
     run := false |}.

(** Two tasks queued, nothing cached, nothing running. *)
Definition two_queued : State :=
  set_tasks [queued 1 "a"; queued 2 "b"] two_shards.

(** A run in which a coroutine object gets the identity of one that was
    released before: task 1 is run by a poll for 2 and its result is
    cached under 1; the next submission gets 1 again, which no live
    coroutine holds; a poll for 3 runs task 2. *)
Definition reissue : list op :=
  [Submit 1 (VObj "a") (VObj "{}"); Submit 2 (VObj "b") (VObj "{}");
   Poll echo 2; Submit 1 (VObj "c") (VObj "{}"); Poll echo 3].

(** One result cached under handle 1, task 2 queued. *)
Definition one_cached : State :=
  snd (get_pending_task_result echo 2 two_queued).

(** ** Resolving a deployment: [_get_deployment_info], [mii_query_handle] *)

(** The fields of [mii.config.MIIConfig] that [mii_query_handle] reads. *)
Record MIIConfig := {
  enable_load_balancing : bool;
  port_number : Z;
  tensor_parallel : Z
}.

(** What lines 14-17 rely on: [mii.utils.import_score_file(name).configs]
    (a dict), the two keys of mii.constants, and the constructor of
    [MIIConfig], which validates the dict it is given. *)
Record Deployment := {
  import_score_file : string -> outcome (gmap string value);
  TASK_NAME_KEY : string;
  MII_CONFIGS_KEY : string;
  new_MIIConfig : value -> outcome MIIConfig
}.

(** The exceptions of this part: the KeyError of a dict subscript, or one
    of the exceptions above. *)
Inductive lookup_exn :=
  | KeyError (key : string)
  | Raised (e : exn).

(** [d[key]]. *)
Definition getitem (d : gmap string value) (key : string)
    : lookup_exn + value :=
  match d !! key with
  | Some v => inr v
  | None => inl (KeyError key)
  end.

(** [_get_deployment_info] (lines 13-20). The task it returns is not
    [None]; it is returned by its name. *)
Definition _get_deployment_info (d : Deployment) (deployment_name : string)
    : lookup_exn + (string * MIIConfig) :=
  match import_score_file d deployment_name with
  | inl e => inl (Raised e)
  | inr configs =>
      match getitem configs (TASK_NAME_KEY d) with
      | inl e => inl e
      | inr task =>
          match getitem configs (MII_CONFIGS_KEY d) with
          | inl e => inl e
          | inr mii_configs_dict =>
              match new_MIIConfig d mii_configs_dict with
              | inl e => inl (Raised e)
              | inr mii_configs =>
                  match task with
                  | VNone =>
                      inl (Raised (AssertionError
                        "The task name should be set before calling init"))
                  | VObj task_name => inr (task_name, mii_configs)
                  end
              end
          end
      end
  end.

(** [[port_number + i for i in range(tensor_parallel)]] (line 42). *)
Definition shard_ports (mii_configs : MIIConfig) : list Z :=
  (fun i => port_number mii_configs + i) <$> seqZ 0 (tensor_parallel mii_configs).

(** What [mii_query_handle] returns: an instance of one of the two
    classes. *)
Inductive query_handle :=
  | SingleEndpoint (client : MIIClient)
  | TensorParallel (self : instance).

(** [mii_query_handle] (lines 23-42). *)
Definition mii_query_handle (d : Deployment)
    (get_task : string -> outcome string) (deployment_name : string)
    : lookup_exn + query_handle :=
  match _get_deployment_info d deployment_name with
  | inl e => inl e
  | inr (task_name, mii_configs) =>
      if enable_load_balancing mii_configs then
        match MIIClient_init get_task task_name "localhost"
                (port_number mii_configs) with
        | inl e => inl (Raised e)
        | inr client => inr (SingleEndpoint client)
        end
      else
        match MIITensorParallelClient_init get_task task_name "localhost"
                (shard_ports mii_configs) with
        | inl e => inl (Raised e)
        | inr self => inr (TensorParallel self)
        end
  end.

(** ** Further notions and concrete data *)

(** What the fan-out of the request of a queued task yields when it
    returns. *)
Definition fanout_value (env : Env) (cs : list MIIClient) (t : Task) : value :=
  match first_shard env cs (coro_request (coro t)) (coro_kwargs (coro t)) with
  | inl _ => VNone
  | inr v => v
  end.

(** The events by which a request leaves the client: the packing of a
    request and the start of a remote call. *)
Definition is_request (e : event) : bool :=
  match e with
  | CallPack _ _ | CallStub _ _ _ => true
  | CallUnpack _ | RunCoro _ | Print _ => false
  end.

(** The entry a drive step caches for a task. *)
Definition cache_entry (env : Env) (cs : list MIIClient) (t : Task) : Result :=
  {| result_id := task_id t; result_value := fanout_value env cs t |}.

(** An entry whose packing function rejects every request. *)
Definition fill_mask : Conversions :=
  {| method := "FillMaskReply";
     pack_request_to_proto := fun _ _ => inl (TypeError "missing key: query");
     unpack_response_from_proto := None |}.

Definition strict : Env :=
  {| GRPC_METHOD_TABLE := {[ "fill-mask" := fill_mask ]};
     rpc := fun _ _ proto_request =>
       {| delay := 0; answer := inr proto_request |} |}.

(** Two shards of which the first refuses the connection, after 3 turns,
    and the second answers at once. *)
Definition first_refuses : Env :=
  {| GRPC_METHOD_TABLE := method_table;
     rpc := fun target _ _ =>
       if bool_decide (snd target = 50050)
       then {| delay := 3; answer := inl (RpcError "connection refused") |}
       else {| delay := 0; answer := inr (VObj "hola") |} |}.

(** A score file of a deployment on two GPUs, with and without load
    balancing. *)
Definition two_gpus (load_balancing : bool) : MIIConfig :=
  {| enable_load_balancing := load_balancing; port_number := 50050;
     tensor_parallel := 2 |}.

Definition local_deployment (load_balancing : bool) : Deployment :=
  {| import_score_file := fun _ =>
       inr ({[ "task_name" := VObj "text-generation";
               "mii_configs" := VObj "{...}" ]} : gmap string value);
     TASK_NAME_KEY := "task_name";
     MII_CONFIGS_KEY := "mii_configs";
     new_MIIConfig := fun _ => inr (two_gpus load_balancing) |}.

(** A score file that holds nothing. *)
Definition empty_score_file : Deployment :=
  {| import_score_file := fun _ => inr (∅ : gmap string value);
     TASK_NAME_KEY := "task_name";
     MII_CONFIGS_KEY := "mii_configs";
     new_MIIConfig := fun _ => inl (ValueError "no configuration") |}.

(** * Properties *)

(** ** Tactics for membership in given lists *)

(** Membership of a given string in a given list of strings. *)
Ltac absent :=
  let H := fresh in
  intros H; unfold class_attributes in H;
  repeat (apply elem_of_cons in H as [H | H]; [discriminate H |]);
  apply elem_of_nil in H; exact H.

Ltac lawful :=
  vm_compute; repeat split; try exact I;
  let H := fresh in
  intros H;
  repeat (apply elem_of_cons in H as [H | H]; [discriminate H |]);
  apply elem_of_nil in H; exact H.

(** ** The event loop *)

Lemma tick_complete (t : shard_task) :
  snd (complete (snd (tick t))) = snd (complete t).
Proof.
  destruct t as [r | [|n] rep conv]; simpl; try reflexivity.
  destruct (request_finish rep conv); reflexivity.
Qed.

Lemma tick_turns_left (t : shard_task) :
  turns_left (snd (tick t)) = Nat.pred (turns_left t).
Proof.
  destruct t as [r | [|n] rep conv]; simpl; try reflexivity.
  destruct (request_finish rep conv); reflexivity.
Qed.

Lemma tick_all_cons (t : shard_task) (ts : list shard_task) :
  tick_all (t :: ts) =
  (fst (tick t) ++ fst (tick_all ts), snd (tick t) :: snd (tick_all ts)).
Proof. simpl. destruct (tick t), (tick_all ts); reflexivity. Qed.

(** With the turns the awaited task needs, the loop stops with that task
    done, holding what its call yields. *)
Lemma run_loop_first (fuel : nat) (t : shard_task) (ts : list shard_task) :
  (turns_left t <= fuel)%nat ->
  exists rest, snd (run_loop fuel (t :: ts)) = Done (snd (complete t)) :: rest.
Proof.
  revert t ts. induction fuel as [|fuel IH]; intros t ts Hle.
  - destruct t as [r | n rep conv]; simpl in *; [eauto | lia].
  - destruct t as [r | n rep conv]; [simpl; eauto |].
    cbn [run_loop]. rewrite tick_all_cons.
    destruct (IH (snd (tick (InFlight n rep conv))) (snd (tick_all ts)))
      as [rest Hrest].
    { rewrite tick_turns_left. simpl in *. lia. }
    rewrite tick_complete in Hrest.
    destruct (run_loop fuel _) as [ev' ts'']. simpl in *. eauto.
Qed.

Lemma create_tasks_cons (env : Env) (c : MIIClient) (cs : list MIIClient)
    (req kw : value) :
  create_tasks env (c :: cs) req kw =
  (fst (request_start env c req kw) ++ fst (create_tasks env cs req kw),
   snd (request_start env c req kw) :: snd (create_tasks env cs req kw)).
Proof.
  simpl. destruct (request_start env c req kw), (create_tasks env cs req kw).
  reflexivity.
Qed.

Lemma create_tasks_events (env : Env) (cs : list MIIClient) (req kw : value) :
  fst (create_tasks env cs req kw) =
  flat_map (fun c => fst (request_start env c req kw)) cs.
Proof.
  induction cs as [|c cs IH]; [reflexivity |].
  rewrite create_tasks_cons. simpl. now rewrite IH.
Qed.

Lemma request_outcome (env : Env) (c : MIIClient) (req kw : value) :
  snd (_request_async_response env c req kw) =
  snd (complete (snd (request_start env c req kw))).
Proof.
  unfold _request_async_response.
  destruct (request_start env c req kw) as [ev t]. simpl.
  destruct (complete t); reflexivity.
Qed.

(** ** [run_until_complete] *)

(** Running a coroutine yields what the first client's call yields; the
    calls of all clients are started first, in order; the queue, the
    cache and the flag are not touched. *)
Lemma run_until_complete_spec (env : Env) (c : Coro) (s : State) :
  let r := run_until_complete env c s in
  fst r =
    match first_shard env (clients s) (coro_request c) (coro_kwargs c) with
    | inl e => inl e
    | inr v => inr (Done (inr v))
    end /\
  same_registry s (snd r) /\
  exists later,
    trace (snd r) =
    trace s ++ [RunCoro c]
      ++ flat_map (fun cl =>
           fst (request_start env cl (coro_request c) (coro_kwargs c)))
           (clients s)
      ++ later.
Proof.
  unfold run_until_complete. cbn zeta.
  change (clients (emit [RunCoro c] s)) with (clients s).
  destruct (clients s) as [|cl cs] eqn:Hcs.
  - simpl. split; [reflexivity |]. split; [now repeat split |].
    exists []. now rewrite <- !app_assoc.
  - rewrite create_tasks_cons.
    pose proof (request_outcome env cl (coro_request c) (coro_kwargs c)) as Hout.
    set (t0 := snd (request_start env cl (coro_request c) (coro_kwargs c))) in *.
    set (ev0 := fst (request_start env cl (coro_request c) (coro_kwargs c))).
    set (evs := fst (create_tasks env cs (coro_request c) (coro_kwargs c))).
    set (ts := snd (create_tasks env cs (coro_request c) (coro_kwargs c))).
    cbn [app]. 
    set (bg := in_flight _).
    destruct (run_loop_first (turns_left t0) t0 (ts ++ bg)) as [rest Hrest];
      [lia |].
    change ((t0 :: ts) ++ bg) with (t0 :: ts ++ bg).
    destruct (run_loop (turns_left t0) (t0 :: ts ++ bg)) as [ev' ts'] eqn:Hrun.
    simpl in Hrest. subst ts'.
    unfold first_shard. rewrite Hout.
    assert (Hev : flat_map (fun cl0 =>
                fst (request_start env cl0 (coro_request c) (coro_kwargs c)))
                (cl :: cs) = ev0 ++ evs).
    { simpl. unfold evs. now rewrite create_tasks_events. }
    rewrite Hev.
    destruct (snd (complete t0)) as [e | v]; simpl.
    + split; [reflexivity |]. split; [now repeat split |].
      exists ev'. now rewrite <- !app_assoc.
    + split; [reflexivity |]. split; [now repeat split |].
      exists ev'. now rewrite <- !app_assoc.
Qed.

Lemma request_start_calls (env : Env) (c : MIIClient) (req kw : value) :
  forallb is_call (fst (request_start env c req kw)) = true.
Proof.
  unfold request_start. destruct (GRPC_METHOD_TABLE env !! task c) as [conv|];
    [| reflexivity].
  destruct (pack_request_to_proto conv req kw); reflexivity.
Qed.

Lemma request_finish_calls (rep : outcome value) (conv : Conversions) :
  forallb is_call (fst (request_finish rep conv)) = true.
Proof.
  unfold request_finish. destruct rep; [reflexivity |].
  destruct (unpack_response_from_proto conv); reflexivity.
Qed.

Lemma tick_calls (t : shard_task) : forallb is_call (fst (tick t)) = true.
Proof.
  destruct t as [r | [|n] rep conv]; simpl; try reflexivity.
  pose proof (request_finish_calls rep conv).
  destruct (request_finish rep conv); assumption.
Qed.

Lemma tick_all_calls (ts : list shard_task) :
  forallb is_call (fst (tick_all ts)) = true.
Proof.
  induction ts as [|t ts IH]; [reflexivity |].
  rewrite tick_all_cons. simpl. rewrite forallb_app, tick_calls, IH.
  reflexivity.
Qed.

Lemma run_loop_calls (fuel : nat) (ts : list shard_task) :
  forallb is_call (fst (run_loop fuel ts)) = true.
Proof.
  revert ts. induction fuel as [|fuel IH]; intros ts.
  - destruct ts as [|[r | n rep conv] ts]; reflexivity.
  - destruct ts as [|[r | n rep conv] ts]; try reflexivity.
    + cbn [run_loop]. pose proof (IH (snd (tick_all []))) as H.
      simpl in *. destruct (run_loop fuel []); assumption.
    + cbn [run_loop].
      pose proof (tick_all_calls (InFlight n rep conv :: ts)) as H1.
      destruct (tick_all (InFlight n rep conv :: ts)) as [ev ts'].
      pose proof (IH ts') as H2.
      destruct (run_loop fuel ts') as [ev' ts'']. simpl in *.
      rewrite forallb_app, H1, H2. reflexivity.
Qed.

Lemma create_tasks_calls (env : Env) (cs : list MIIClient) (req kw : value) :
  forallb is_call (fst (create_tasks env cs req kw)) = true.
Proof.
  induction cs as [|c cs IH]; [reflexivity |].
  rewrite create_tasks_cons. simpl.
  rewrite forallb_app, request_start_calls, IH. reflexivity.
Qed.

Lemma ran_app (l1 l2 : list event) : ran (l1 ++ l2) = ran l1 ++ ran l2.
Proof. unfold ran. apply flat_map_app. Qed.

Lemma ran_calls (l : list event) : forallb is_call l = true -> ran l = [].
Proof.
  induction l as [|e l IH]; [reflexivity |].
  simpl. intros H. apply andb_prop in H as [He Hl].
  destruct e; try discriminate; simpl; auto.
Qed.

(** Running a coroutine hands that coroutine, and no other, to the loop. *)
Lemma run_until_complete_ran (env : Env) (c : Coro) (s : State) :
  ran (trace (snd (run_until_complete env c s))) = ran (trace s) ++ [c].
Proof.
  unfold run_until_complete. cbn zeta.
  pose proof (create_tasks_calls env (clients (emit [RunCoro c] s))
                (coro_request c) (coro_kwargs c)) as Hc.
  destruct (create_tasks env (clients (emit [RunCoro c] s))
              (coro_request c) (coro_kwargs c)) as [ev responses].
  simpl in Hc. apply ran_calls in Hc.
  destruct responses as [|first rs].
  - simpl. rewrite !ran_app, Hc. simpl. now rewrite app_nil_r.
  - pose proof (run_loop_calls (turns_left first)
        ((first :: rs) ++ in_flight (emit ev (emit [RunCoro c] s)))) as Hl.
    destruct (run_loop _ _) as [ev' ts]. simpl in Hl. apply ran_calls in Hl.
    assert (Hgoal : ran (trace (emit ev' (emit ev (emit [RunCoro c] s)))) =
                    ran (trace s) ++ [c]).
    { simpl. rewrite !ran_app, Hc, Hl. simpl. now rewrite !app_nil_r. }
    destruct ts as [|[[e | v] | n rep conv] others]; exact Hgoal.
Qed.

(** ** [get_pending_task_result], case by case *)

Lemma remove_head (t : Task) (l : list Task) : remove t (t :: l) = l.
Proof. simpl. destruct (decide (t = t)); [reflexivity | contradiction]. Qed.

(** The handle has an entry in the cache: the entry is returned and every
    entry under the handle goes; nothing runs. *)
Lemma poll_cached (env : Env) (id : Z) (s : State) (r : Result) :
  cached id s = Some r ->
  get_pending_task_result env id s =
  (result_value r,
   set_results
     (List.filter (fun item => negb (bool_decide (result_id item = id)))
                  (results s)) s).
Proof.
  unfold cached, get_pending_task_result. intros ->. reflexivity.
Qed.

(** No entry, and a task is marked running or the queue is empty: the
    answer is [None] and nothing changes. *)
Lemma poll_idle (env : Env) (id : Z) (s : State) :
  cached id s = None ->
  running s = true \/ tasks s = [] ->
  get_pending_task_result env id s = (VNone, s).
Proof.
  unfold cached, get_pending_task_result. intros -> [H | H]; rewrite H.
  - reflexivity.
  - now rewrite andb_false_r.
Qed.

(** No entry, no task marked running, a task at the head of the queue:
    that task is taken off the queue and its coroutine is run. *)
Lemma poll_drive (env : Env) (id : Z) (s : State) (t : Task) (rest : list Task) :
  cached id s = None -> running s = false -> tasks s = t :: rest ->
  let r := get_pending_task_result env id s in
  clients (snd r) = clients s /\
  tasks (snd r) = rest /\
  ran (trace (snd r)) = ran (trace s) ++ [coro t] /\
  match first_shard env (clients s) (coro_request (coro t))
                    (coro_kwargs (coro t)) with
  | inl e =>
      fst r = VNone /\ results (snd r) = results s /\ running (snd r) = true /\
      exists mid,
        trace (snd r) =
        trace s ++ Print (started_line t (length (tasks s))) :: mid
                ++ [Print (failed_line t e)]
  | inr v =>
      running (snd r) = false /\
      (exists mid,
        trace (snd r) =
        trace s ++ Print (started_line t (length (tasks s))) :: mid
                ++ [Print (complete_line t)]) /\
      if bool_decide (id = task_id t)
      then fst r = v /\ results (snd r) = results s
      else fst r = VNone /\
           results (snd r) =
           results s ++ [{| result_id := task_id t; result_value := v |}]
  end.
Proof.
  intros Hc Hr Ht. unfold cached in Hc.
  unfold get_pending_task_result. rewrite Hc, Hr, Ht.
  cbn [negb andb length Nat.ltb Nat.leb].
  change (tasks (set_running true s)) with (tasks s).
  change (tasks (print ?l (set_running true s))) with (tasks s).
  rewrite Ht, remove_head.
  set (s3 := set_tasks rest _).
  pose proof (run_until_complete_spec env (coro t) s3)
    as (Hres & Hsame & later & Htr).
  pose proof (run_until_complete_ran env (coro t) s3) as Hran.
  destruct Hsame as (Hcl & Htk & Hrs & Hrn).
  change (clients s3) with (clients s) in *.
  change (tasks s3) with rest in *.
  change (results s3) with (results s) in *.
  change (running s3) with true in *.
  change (trace s3)
    with (trace s ++ [Print (started_line t (length (t :: rest)))]) in *.
  rewrite ran_app in Hran. cbn [ran flat_map app] in Hran.
  rewrite app_nil_r in Hran.
  destruct (run_until_complete env (coro t) s3) as [res s4].
  cbn [fst snd] in *.
  assert (Hline : forall l,
            ran (trace s4 ++ [Print l]) = ran (trace s) ++ [coro t]).
  { intros l. rewrite ran_app, Hran.
    change (ran [Print l]) with (@nil Coro). apply app_nil_r. }
  assert (Hmid : forall l, exists mid,
            trace s4 ++ [Print l] =
            trace s ++ Print (started_line t (length (t :: rest))) :: mid
                    ++ [Print l]).
  { intros l.
    exists ([RunCoro (coro t)]
            ++ flat_map (fun cl => fst (request_start env cl
                  (coro_request (coro t)) (coro_kwargs (coro t)))) (clients s)
            ++ later).
    rewrite Htr, <- !app_assoc. reflexivity. }
  destruct (first_shard env (clients s) (coro_request (coro t))
              (coro_kwargs (coro t))) as [e | v]; subst res.
  - cbn [fst snd clients tasks results running trace print emit
         set_running set_results].
    repeat split; try assumption; try apply Hline; apply Hmid.
  - cbn [result].
    destruct (bool_decide (id = task_id t));
      cbn [fst snd clients tasks results running trace print emit
           set_running set_results];
      repeat split; try assumption; try apply Hline; try apply Hmid;
      congruence.
Qed.

(** ** C9: the endpoint client *)

(** C9. A call of [_request_async_response] for a task with no entry in
    the conversion table raises the unknown-task error with no call made
    to the packing function or to the stub. With an entry (and a request
    that packs and a reply that arrives), the reply goes through the
    entry's unpacking function when it has one, and is returned as it is
    when it has none. *)
Theorem unknown_task_raised_before_any_call (env : Env) (self : MIIClient)
    (request_dict query_kwargs : value) :
  (GRPC_METHOD_TABLE env !! task self = None ->
   _request_async_response env self request_dict query_kwargs =
   ([], inl (ValueError ("unknown task: " +:+ task self)))) /\
  (forall conversions proto_request proto_response,
     GRPC_METHOD_TABLE env !! task self = Some conversions ->
     pack_request_to_proto conversions request_dict query_kwargs
       = inr proto_request ->
     answer (rpc env (stub self) (method conversions) proto_request)
       = inr proto_response ->
     _request_async_response env self request_dict query_kwargs =
     match unpack_response_from_proto conversions with
     | Some unpack =>
         ([CallPack request_dict query_kwargs;
           CallStub (stub self) (method conversions) proto_request;
           CallUnpack proto_response],
          unpack proto_response)
     | None =>
         ([CallPack request_dict query_kwargs;
           CallStub (stub self) (method conversions) proto_request],
          inr proto_response)
     end).
Proof.
  split.
  - intros Hnone. unfold _request_async_response, request_start.
    rewrite Hnone. reflexivity.
  - intros conv preq presp Hsome Hpack Hans.
    unfold _request_async_response, request_start.
    rewrite Hsome, Hpack. cbn [complete request_finish]. rewrite Hans.
    unfold request_finish.
    destruct (unpack_response_from_proto conv); reflexivity.
Qed.

Lemma unknown_task_raised_before_any_call_witness :
  _request_async_response echo
    {| stub := ("localhost", 50050); task := "unsupported" |}
    (VObj "q") (VObj "{}")
  = ([], inl (ValueError "unknown task: unsupported")) /\
  _request_async_response echo
    {| stub := ("localhost", 50050); task := "question-answering" |}
    (VObj "q") (VObj "{}")
  = ([CallPack (VObj "q") (VObj "{}");
      CallStub ("localhost", 50050) "QuestionAndAnswerReply" (VObj "q");
      CallUnpack (VObj "q")],
     inr (VObj "unpacked:q")) /\
  _request_async_response echo (shard 50050) (VObj "q") (VObj "{}")
  = ([CallPack (VObj "q") (VObj "{}");
      CallStub ("localhost", 50050) "GeneratorReply" (VObj "q")],
     inr (VObj "q")).
Proof.
  split; [| split].
  - apply (proj1 (unknown_task_raised_before_any_call echo
                    {| stub := ("localhost", 50050); task := "unsupported" |}
                    (VObj "q") (VObj "{}"))).
    vm_compute. reflexivity.
  - apply (proj2 (unknown_task_raised_before_any_call echo
                    {| stub := ("localhost", 50050);
                       task := "question-answering" |}
                    (VObj "q") (VObj "{}"))
             question_answering (VObj "q") (VObj "q"));
      vm_compute; reflexivity.
  - apply (proj2 (unknown_task_raised_before_any_call echo (shard 50050)
                    (VObj "q") (VObj "{}"))
             text_generation (VObj "q") (VObj "q"));
      vm_compute; reflexivity.
Defined.

(** ** C3: construction of the fan-out client *)

Lemma make_clients_ok (get_task : string -> outcome string)
    (task_name host : string) (ports : list Z) (t : string) :
  get_task task_name = inr t ->
  make_clients get_task task_name host ports =
  inr ((fun port => {| stub := (host, port); task := t |}) <$> ports).
Proof.
  intros Ht. induction ports as [|port ports IH]; [reflexivity |].
  cbn [make_clients]. unfold MIIClient_init. rewrite Ht.
  cbn [bind]. rewrite IH. reflexivity.
Qed.

(** The attributes lines 94-96 assign, when [get_task] accepts the name. *)
Lemma init_attributes_ok (get_task : string -> outcome string)
    (task_name host : string) (ports : list Z) (t : string) :
  get_task task_name = inr t ->
  init_attributes get_task task_name host ports =
  inr (<["asyncio_loop" := PEventLoop]>
         (<["clients" :=
              PClients ((fun port => {| stub := (host, port); task := t |})
                          <$> ports)]>
            (<["task" := PTaskKind t]> ∅))).
Proof.
  intros Ht. unfold init_attributes. rewrite Ht. cbn [bind].
  rewrite (make_clients_ok _ _ _ _ _ Ht). reflexivity.
Qed.

(** An attribute that is neither one of the three assigned by then nor a
    method of the class is not found. *)
Lemma getattr_unassigned (t : string) (cs : list MIIClient) (name : string) :
  name ∉ ["asyncio_loop"; "clients"; "task"] ->
  name ∉ class_attributes ->
  getattr (<["asyncio_loop" := PEventLoop]>
             (<["clients" := PClients cs]>
                (<["task" := PTaskKind t]> (∅ : instance)))) name
  = inl (no_attribute name).
Proof.
  intros Hassigned Hclass. unfold getattr.
  rewrite !lookup_insert_ne, lookup_empty
    by (intros Heq; subst name; apply Hassigned; repeat constructor).
  rewrite bool_decide_eq_false_2 by assumption. reflexivity.
Qed.

(** C3 as the specification words it, refuted: the constructor calls
    [get_task] first (line 94), and a [get_task] that rejects the task
    name makes the constructor raise that exception, which is no
    AttributeError. *)
Lemma construction_may_raise_another_error :
  ~ (forall (get_task : string -> outcome string) (task_name host : string)
            (ports : list Z),
       ports <> [] ->
       exists msg,
         MIITensorParallelClient_init get_task task_name host ports
         = inl (AttributeError msg)).
Proof.
  intros Hclaim.
  destruct (Hclaim known_tasks "bogus" "localhost" [50050]) as [msg Hmsg];
    [discriminate |].
  vm_compute in Hmsg. discriminate Hmsg.
Qed.

(** C3, as the code has it. Constructing a [MIITensorParallelClient]
    never yields an instance. When [get_task] rejects the task name, the
    constructor raises the exception of [get_task]. When [get_task]
    accepts it, the instance has the attributes [task], [clients] and
    [asyncio_loop] when [_initialize_grpc_client] is called; [num_gpus],
    [port_number] and [stubs], which that method reads, are not among
    them, and the constructor raises the AttributeError of [num_gpus],
    the first one it reads. This holds for every host and every list of
    ports. *)
Theorem construction_raises_attribute_error
    (get_task : string -> outcome string) (task_name host : string)
    (ports : list Z) :
  (forall self,
     MIITensorParallelClient_init get_task task_name host ports <> inr self) /\
  (forall e, get_task task_name = inl e ->
     MIITensorParallelClient_init get_task task_name host ports = inl e) /\
  (forall t, get_task task_name = inr t ->
     MIITensorParallelClient_init get_task task_name host ports
       = inl (no_attribute "num_gpus") /\
     exists self,
       init_attributes get_task task_name host ports = inr self /\
       Forall (fun name => getattr self name = inl (no_attribute name))
              ["num_gpus"; "port_number"; "stubs"]).
Proof.
  assert (Hok : forall t, get_task task_name = inr t ->
     MIITensorParallelClient_init get_task task_name host ports
       = inl (no_attribute "num_gpus") /\
     exists self,
       init_attributes get_task task_name host ports = inr self /\
       Forall (fun name => getattr self name = inl (no_attribute name))
              ["num_gpus"; "port_number"; "stubs"]).
  { intros t Ht. pose proof (init_attributes_ok _ _ host ports _ Ht) as Hattrs.
    split.
    - unfold MIITensorParallelClient_init. rewrite Hattrs. cbn [bind].
      unfold _initialize_grpc_client.
      rewrite getattr_unassigned; [reflexivity | absent | absent].
    - eexists. split; [exact Hattrs |].
      repeat constructor; apply getattr_unassigned; absent. }
  assert (Hrej : forall e, get_task task_name = inl e ->
     MIITensorParallelClient_init get_task task_name host ports = inl e).
  { intros e He. unfold MIITensorParallelClient_init, init_attributes.
    rewrite He. reflexivity. }
  split; [| split; [exact Hrej | exact Hok]].
  intros self Hself.
  destruct (get_task task_name) as [e | t] eqn:Ht.
  - rewrite (Hrej e eq_refl) in Hself. discriminate.
  - destruct (Hok t eq_refl) as [H _]. rewrite H in Hself. discriminate.
Qed.

Lemma construction_raises_attribute_error_witness :
  known_tasks "text-generation" = inr "text-generation" /\
  MIITensorParallelClient_init known_tasks "text-generation" "localhost"
    [50050; 50051]
  = inl (AttributeError
           "'MIITensorParallelClient' object has no attribute 'num_gpus'") /\
  MIITensorParallelClient_init known_tasks "bogus" "localhost" [50050; 50051]
  = inl (AssertionError "Task name should be one of the supported tasks").
Proof.
  split; [reflexivity |]. split.
  - apply (proj2 (proj2 (construction_raises_attribute_error known_tasks
                    "text-generation" "localhost" [50050; 50051]))
             "text-generation").
    reflexivity.
  - apply (proj1 (proj2 (construction_raises_attribute_error known_tasks
                    "bogus" "localhost" [50050; 50051]))).
    reflexivity.
Defined.

(** [_initialize_grpc_client] is not vacuous: on an instance that has the
    three attributes it opens one channel per shard. *)
Example initialize_grpc_client_with_attributes :
  _initialize_grpc_client
    (<["num_gpus" := PInt 2]>
       (<["port_number" := PInt 50050]> (<["stubs" := PStubs []]> ∅)))
  = inr (<["num_gpus" := PInt 2]>
           (<["port_number" := PInt 50050]>
              (<["stubs" := PStubs [("localhost", 50050); ("localhost", 50051)]]>
                 ∅))).
Proof. vm_compute. reflexivity. Qed.

(** A bool counts as an int: with [num_gpus] True the loop runs once. *)
Example initialize_grpc_client_bool :
  _initialize_grpc_client
    (<["num_gpus" := PBool true]>
       (<["port_number" := PInt 50050]> (<["stubs" := PStubs []]> ∅)))
  = inr (<["num_gpus" := PBool true]>
           (<["port_number" := PInt 50050]>
              (<["stubs" := PStubs [("localhost", 50050)]]> ∅))).
Proof. vm_compute. reflexivity. Qed.

(** ** C1: the blocking fan-out *)

(** A call that returns a value found its entry, packed its request and
    started its remote call. *)
Lemma request_success_started (env : Env) (c : MIIClient) (req kw v : value) :
  snd (_request_async_response env c req kw) = inr v ->
  exists conv proto_request,
    GRPC_METHOD_TABLE env !! task c = Some conv /\
    pack_request_to_proto conv req kw = inr proto_request.
Proof.
  unfold _request_async_response, request_start.
  destruct (GRPC_METHOD_TABLE env !! task c) as [conv|];
    [| cbn [complete snd]; discriminate].
  destruct (pack_request_to_proto conv req kw) as [e | p] eqn:Hpack;
    [cbn [complete snd]; discriminate |].
  intros _. exists conv, p. split; [reflexivity | exact Hpack].
Qed.

Lemma query_spec (env : Env) (req kw : value) (s : State) :
  fst (query env req kw s) = first_shard env (clients s) req kw.
Proof.
  unfold query.
  pose proof (run_until_complete_spec env
    {| coro_id := 0; coro_request := req; coro_kwargs := kw |} s)
    as (Hres & _).
  cbn [coro_request coro_kwargs fst] in Hres.
  destruct (run_until_complete env _ s) as [res s'].
  cbn [fst] in *. subst res.
  destruct (first_shard env (clients s) req kw); reflexivity.
Qed.

(** C1. With at least one shard, when the call of the shard of index 0
    returns [v], the blocking [query] returns exactly [v], whatever the
    other shards answer and however long each shard takes (the
    environment, the other clients and the tasks already on the loop are
    arbitrary). The call of every client is started, in the order of the
    shards, before anything else happens; in particular every client of
    the same task kind as shard 0 has its remote call sent. The queue, the
    cache and the running flag are left as they were. *)
Theorem query_returns_first_shard (env : Env) (request_dict query_kwargs : value)
    (s : State) (first : MIIClient) (others : list MIIClient) (v : value) :
  clients s = first :: others ->
  snd (_request_async_response env first request_dict query_kwargs) = inr v ->
  let r := query env request_dict query_kwargs s in
  fst r = inr v /\
  same_registry s (snd r) /\
  (exists c later,
     trace (snd r) =
     trace s ++ [RunCoro c]
       ++ flat_map (fun cl =>
            fst (request_start env cl request_dict query_kwargs))
            (first :: others)
       ++ later) /\
  (forall cl, cl ∈ first :: others -> task cl = task first ->
     exists method proto_request,
       CallStub (stub cl) method proto_request ∈ trace (snd r)).
Proof.
  intros Hcs Hfirst r.
  assert (Hret : fst r = inr v).
  { unfold r. rewrite query_spec, Hcs. exact Hfirst. }
  pose proof (run_until_complete_spec env
    {| coro_id := 0; coro_request := request_dict;
       coro_kwargs := query_kwargs |} s) as (_ & Hsame & later & Htr).
  cbn [coro_request coro_kwargs] in Htr.
  assert (Hsnd : snd r =
    snd (run_until_complete env
           {| coro_id := 0; coro_request := request_dict;
              coro_kwargs := query_kwargs |} s)).
  { unfold r, query. destruct (run_until_complete env _ s) as [[e | resp] s'];
      reflexivity. }
  rewrite Hsnd. rewrite Hcs in Htr.
  split; [exact Hret |]. split; [exact Hsame |]. split; [eauto |].
  intros cl Hin Htask.
  destruct (request_success_started _ _ _ _ _ Hfirst) as (conv & p & Hconv & Hpack).
  exists (method conv), p. rewrite Htr.
  apply elem_of_app; right. apply elem_of_app; right.
  apply elem_of_app; left.
  apply list_elem_of_In, in_flat_map. exists cl.
  split; [now apply list_elem_of_In |].
  unfold request_start. rewrite Htask, Hconv, Hpack. cbn [fst].
  right; left; reflexivity.
Qed.

Lemma query_returns_first_shard_witness :
  clients two_shards = [shard 50050; shard 50051] /\
  snd (_request_async_response slow_first (shard 50050) (VObj "q") (VObj "{}"))
    = inr (VObj "hello") /\
  fst (query slow_first (VObj "q") (VObj "{}") two_shards)
    = inr (VObj "hello").
Proof.
  split; [reflexivity |]. split; [vm_compute; reflexivity |].
  apply (query_returns_first_shard slow_first (VObj "q") (VObj "{}")
           two_shards (shard 50050) [shard 50051] (VObj "hello")).
  - reflexivity.
  - vm_compute. reflexivity.
Defined.

(** The scenario of the specification: shard A answers "hello" after 50
    turns, shard B answers "hola" after 10; [query] returns A's answer,
    and B's call, done by then, is not waited for by anything. *)
Example query_designates_shard_0 :
  query slow_first (VObj "q") (VObj "{}") two_shards
  = (inr (VObj "hello"),
     {| clients := [shard 50050; shard 50051]; tasks := []; results := [];
        running := false; in_flight := [];
        trace :=
          [RunCoro {| coro_id := 0; coro_request := VObj "q";
                      coro_kwargs := VObj "{}" |};
           CallPack (VObj "q") (VObj "{}");
           CallStub ("localhost", 50050) "GeneratorReply" (VObj "q");
           CallPack (VObj "q") (VObj "{}");
           CallStub ("localhost", 50051) "GeneratorReply" (VObj "q")] |}).
Proof. vm_compute. reflexivity. Qed.

(** ** The cache *)

Lemma cached_None (id : Z) (s : State) :
  cached id s = None <-> id ∉ result_id <$> results s.
Proof.
  unfold cached. split.
  - intros Hfind Hin. apply list_elem_of_fmap in Hin as (x & -> & Hx).
    apply list_elem_of_In in Hx.
    pose proof (find_none _ _ Hfind x Hx) as Hb. cbn beta in Hb.
    now rewrite bool_decide_eq_true_2 in Hb.
  - intros Hnot.
    destruct (find _ (results s)) as [x|] eqn:Hfind; [| reflexivity].
    apply find_some in Hfind as [Hx Hb]. apply bool_decide_eq_true_1 in Hb.
    exfalso. apply Hnot. apply list_elem_of_fmap. exists x.
    split; [now symmetry | now apply list_elem_of_In].
Qed.

(** Claiming a handle leaves no entry under it, and adds none. *)
Lemma claimed_absent (id : Z) (l : list Result) :
  id ∉ result_id <$>
    List.filter (fun item => negb (bool_decide (result_id item = id))) l.
Proof.
  intros Hin. apply list_elem_of_fmap in Hin as (x & -> & Hx).
  apply list_elem_of_In, filter_In in Hx as [_ Hb].
  now rewrite bool_decide_eq_true_2 in Hb.
Qed.

Lemma claimed_subset (id h : Z) (l : list Result) :
  h ∉ result_id <$> l ->
  h ∉ result_id <$>
    List.filter (fun item => negb (bool_decide (result_id item = id))) l.
Proof.
  intros Hnot Hin. apply Hnot.
  apply list_elem_of_fmap in Hin as (x & -> & Hx).
  apply list_elem_of_In, filter_In in Hx as [Hx _].
  apply list_elem_of_fmap. exists x. split; [reflexivity |].
  now apply list_elem_of_In.
Qed.

(** What running a coroutine yields, read off the call of the first
    client. *)
Lemma run_raises (env : Env) (c : Coro) (s : State) (e : exn) :
  fst (run_until_complete env c s) = inl e ->
  first_shard env (clients s) (coro_request c) (coro_kwargs c) = inl e.
Proof.
  pose proof (run_until_complete_spec env c s) as (Hres & _).
  cbn zeta in Hres. rewrite Hres.
  destruct (first_shard env (clients s) (coro_request c) (coro_kwargs c));
    congruence.
Qed.

Lemma run_returns (env : Env) (c : Coro) (s : State) (response : shard_task)
    (v : value) :
  fst (run_until_complete env c s) = inr response ->
  result response = inr v ->
  first_shard env (clients s) (coro_request c) (coro_kwargs c) = inr v.
Proof.
  pose proof (run_until_complete_spec env c s) as (Hres & _).
  cbn zeta in Hres. rewrite Hres.
  destruct (first_shard env (clients s) (coro_request c) (coro_kwargs c));
    [discriminate |].
  intros [= <-]. cbn [result]. congruence.
Qed.

(** A coroutine that returns returns a finished task: [result()] on it
    does not raise InvalidStateError. *)
Lemma run_returns_done (env : Env) (c : Coro) (s : State)
    (response : shard_task) :
  fst (run_until_complete env c s) = inr response ->
  exists v, response = Done (inr v).
Proof.
  pose proof (run_until_complete_spec env c s) as (Hres & _).
  cbn zeta in Hres. rewrite Hres.
  destruct (first_shard env (clients s) (coro_request c) (coro_kwargs c));
    [discriminate |].
  intros [= <-]. eauto.
Qed.

(** ** One poll: what happens to the queue *)

(** A poll leaves the queue alone and runs nothing, or it takes the head
    of the queue, with no task marked running, and runs that one. *)
Lemma poll_queue (env : Env) (id : Z) (s : State) :
  let s' := snd (get_pending_task_result env id s) in
  clients s' = clients s /\
  ((tasks s' = tasks s /\ ran (trace s') = ran (trace s)) \/
   (exists t rest,
      running s = false /\ tasks s = t :: rest /\
      tasks s' = rest /\ ran (trace s') = ran (trace s) ++ [coro t])).
Proof.
  destruct (cached id s) as [r|] eqn:Hc.
  - rewrite (poll_cached env id s r Hc). cbn. auto.
  - destruct (running s) eqn:Hr.
    + rewrite (poll_idle env id s Hc (or_introl Hr)). cbn. auto.
    + destruct (tasks s) as [|t rest] eqn:Ht.
      * rewrite (poll_idle env id s Hc (or_intror Ht)). cbn. auto.
      * pose proof (poll_drive env id s t rest Hc Hr Ht) as (Hcl & Htk & Hran & _).
        cbn zeta. split; [exact Hcl |]. right. exists t, rest. auto.
Qed.

(** ** C6: the queue is drained from its head, one task per poll *)

Lemma step_queue (o : op) (s : State) :
  let s' := snd (step o s) in
  ran (trace s') ++ (coro <$> tasks s') =
  ran (trace s) ++ (coro <$> tasks s) ++ submitted [o].
Proof.
  destruct o as [new_id req kw | env id]; cbn [step].
  - cbn [query_non_block snd tasks set_tasks trace submitted flat_map app].
    rewrite fmap_app. reflexivity.
  - pose proof (poll_queue env id s) as (_ & Hq). cbn zeta in Hq.
    destruct (get_pending_task_result env id s) as [v s']. cbn [snd] in *.
    cbn [submitted flat_map]. rewrite app_nil_r.
    destruct Hq as [[-> ->] | (t & rest & _ & -> & -> & ->)]; [reflexivity |].
    rewrite <- app_assoc. reflexivity.
Qed.

Lemma run_ops_cons (o : op) (ops : list op) (s : State) :
  run_ops (o :: ops) s =
  (fst (step o s) :: fst (run_ops ops (snd (step o s))),
   snd (run_ops ops (snd (step o s)))).
Proof.
  cbn [run_ops]. destruct (step o s) as [r s']. cbn [fst snd].
  destruct (run_ops ops s'); reflexivity.
Qed.

Lemma submitted_cons (o : op) (ops : list op) :
  submitted (o :: ops) = submitted [o] ++ submitted ops.
Proof. unfold submitted. cbn [flat_map]. now rewrite app_nil_r. Qed.

(** C6. A poll, whatever handle it asks about, either runs nothing and
    leaves the queue as it is, or runs exactly one task: the head of the
    queue, which it takes off the queue, and only with no task marked
    running. Along any sequence of submissions and polls the coroutines
    run so far, followed by those still queued, are the coroutines that
    were queued at the start followed by the submitted ones, in
    submission order: tasks run in the order of their submission. *)
Theorem queue_drained_in_submission_order :
  (forall env id s,
     let s' := snd (get_pending_task_result env id s) in
     (tasks s' = tasks s /\ ran (trace s') = ran (trace s)) \/
     (exists t rest,
        running s = false /\ tasks s = t :: rest /\
        tasks s' = rest /\ ran (trace s') = ran (trace s) ++ [coro t])) /\
  (forall ops s,
     let s' := snd (run_ops ops s) in
     ran (trace s') ++ (coro <$> tasks s') =
     ran (trace s) ++ (coro <$> tasks s) ++ submitted ops).
Proof.
  split.
  - intros env id s. apply poll_queue.
  - intros ops. induction ops as [|o ops IH]; intros s.
    + cbn. now rewrite app_nil_r.
    + cbn zeta. rewrite run_ops_cons. cbn [snd].
      specialize (IH (snd (step o s))). cbn zeta in IH. rewrite IH.
      rewrite (submitted_cons o ops), app_assoc, step_queue, <- !app_assoc.
      reflexivity.
Qed.

(** Three tasks submitted in the order 1, 2, 3 and polled for in the
    order 3, 2, 1: the poll for 3 runs task 1 and caches its result, the
    poll for 2 runs task 2 and returns its result, the poll for 1 finds
    the cached result and runs nothing; task 3 is still queued. *)
Example three_tasks_polled_backwards :
  let ops := [Submit 1 (VObj "a") (VObj "{}"); Submit 2 (VObj "b") (VObj "{}");
              Submit 3 (VObj "c") (VObj "{}");
              Poll echo 3; Poll echo 2; Poll echo 1] in
  fst (run_ops ops two_shards) =
    [Handle 1; Handle 2; Handle 3;
     Answer VNone; Answer (VObj "b"); Answer (VObj "a")] /\
  coro_id <$> ran (trace (snd (run_ops ops two_shards))) = [1; 2] /\
  results (snd (run_ops ops two_shards)) = [] /\
  tasks (snd (run_ops ops two_shards)) =
    [{| task_id := 3;
        coro := {| coro_id := 3; coro_request := VObj "c";
                   coro_kwargs := VObj "{}" |};
        run := false |}].
Proof. vm_compute. repeat split. Qed.

(** ** C7: what a successful drive step answers *)

(** C7. Take a poll that drives the queue (no entry cached under the
    requested handle, no task marked running, a task [t] at the head) and
    whose coroutine returns a task with result [v]. If the handle of [t]
    is the requested one, the poll returns [v] and the cache is as it
    was; otherwise the poll returns [None] and the cache has one more
    entry, [v] under the handle of [t], at its end. Either way [t] has
    left the queue and the running flag is down again. *)
Theorem drive_answers_requester_or_caches (env : Env) (id : Z) (s : State)
    (t : Task) (rest : list Task) (response : shard_task) (v : value) :
  cached id s = None -> running s = false -> tasks s = t :: rest ->
  fst (run_until_complete env (coro t) s) = inr response ->
  result response = inr v ->
  let r := get_pending_task_result env id s in
  tasks (snd r) = rest /\ running (snd r) = false /\
  (id = task_id t -> fst r = v /\ results (snd r) = results s) /\
  (id <> task_id t ->
     fst r = VNone /\
     results (snd r) =
     results s ++ [{| result_id := task_id t; result_value := v |}]).
Proof.
  intros Hc Hr Ht Hrun Hres r.
  pose proof (run_returns env (coro t) s response v Hrun Hres) as Hfirst.
  pose proof (poll_drive env id s t rest Hc Hr Ht) as (_ & Htk & _ & Hcase).
  fold r in Htk, Hcase. rewrite Hfirst in Hcase.
  destruct Hcase as (Hrn & _ & Hif).
  split; [exact Htk |]. split; [exact Hrn |]. split; intros Hid.
  - rewrite bool_decide_eq_true_2 in Hif by exact Hid. exact Hif.
  - rewrite bool_decide_eq_false_2 in Hif by exact Hid. exact Hif.
Qed.

Lemma drive_answers_requester_or_caches_witness :
  fst (get_pending_task_result echo 1 two_queued) = VObj "a" /\
  results (snd (get_pending_task_result echo 1 two_queued)) = [] /\
  fst (get_pending_task_result echo 2 two_queued) = VNone /\
  results (snd (get_pending_task_result echo 2 two_queued)) =
    [{| result_id := 1; result_value := VObj "a" |}].
Proof.
  assert (Hrun : fst (run_until_complete echo (coro (queued 1 "a")) two_queued)
                 = inr (Done (inr (VObj "a")))) by (vm_compute; reflexivity).
  pose proof (drive_answers_requester_or_caches echo 1 two_queued
                (queued 1 "a") [queued 2 "b"] (Done (inr (VObj "a"))) (VObj "a")
                eq_refl eq_refl eq_refl Hrun eq_refl) as (_ & _ & Hsame & _).
  pose proof (drive_answers_requester_or_caches echo 2 two_queued
                (queued 1 "a") [queued 2 "b"] (Done (inr (VObj "a"))) (VObj "a")
                eq_refl eq_refl eq_refl Hrun eq_refl) as (_ & _ & _ & Hother).
  destruct (Hsame eq_refl) as [H1 H2].
  destruct (Hother ltac:(discriminate)) as [H3 H4].
  repeat split; assumption.
Defined.

(** ** Handles that the registry does not hold *)

(** A poll for a handle that neither a queued task nor a cached result
    carries answers [None]. *)
Lemma poll_unknown (env : Env) (id : Z) (s : State) :
  id ∉ live_ids s ->
  id ∉ result_id <$> results s ->
  fst (get_pending_task_result env id s) = VNone.
Proof.
  intros Hlive Hres. apply cached_None in Hres.
  destruct (running s) eqn:Hr.
  - now rewrite (poll_idle env id s Hres (or_introl Hr)).
  - destruct (tasks s) as [|t rest] eqn:Ht.
    + now rewrite (poll_idle env id s Hres (or_intror Ht)).
    + pose proof (poll_drive env id s t rest Hres Hr Ht) as (_ & _ & _ & Hcase).
      assert (Hne : id <> task_id t).
      { intros ->. apply Hlive. unfold live_ids. rewrite Ht.
        cbn [fmap list_fmap]. apply elem_of_cons. now left. }
      destruct (first_shard _ _ _ _) as [e | v].
      * apply Hcase.
      * destruct Hcase as (_ & _ & Hif).
        rewrite bool_decide_eq_false_2 in Hif by exact Hne. apply Hif.
Qed.

(** ** C5: polling a handle that no submission returned *)

(** C5 as the specification words it, refuted: one task is queued
    under handle 7; a poll for 99, a handle that was never issued,
    answers [None], and takes the task off the queue and runs it. *)
Lemma unknown_handle_advances_queue :
  let s := snd (query_non_block 7 (VObj "a") (VObj "{}") two_shards) in
  let r := get_pending_task_result echo 99 s in
  (99 ∉ live_ids s) /\ cached 99 s = None /\
  fst r = VNone /\
  tasks s = [queued 7 "a"] /\ tasks (snd r) = [] /\
  ran (trace (snd r)) = [coro (queued 7 "a")] /\
  tasks (snd r) <> tasks s.
Proof.
  cbn zeta. split.
  - intros H. vm_compute in H.
    apply elem_of_cons in H as [H | H]; [discriminate |].
    now apply elem_of_nil in H.
  - vm_compute. repeat split. discriminate.
Qed.

(** C5, as the code has it. A poll for a handle that is the handle of no
    queued task and of no cached result answers [None], whatever the
    servers do. It leaves the state as it is when a task is marked
    running or the queue is empty; otherwise it takes the head of the
    queue and runs it, as a poll for any other handle does. *)
Theorem unknown_handle_not_ready (env : Env) (id : Z) (s : State) :
  id ∉ live_ids s ->
  id ∉ result_id <$> results s ->
  let r := get_pending_task_result env id s in
  fst r = VNone /\
  (running s = true \/ tasks s = [] -> snd r = s) /\
  (forall t rest,
     running s = false -> tasks s = t :: rest ->
     tasks (snd r) = rest /\
     ran (trace (snd r)) = ran (trace s) ++ [coro t]).
Proof.
  intros Hlive Hres r.
  split; [exact (poll_unknown env id s Hlive Hres) |].
  apply cached_None in Hres. split.
  - intros Hidle. unfold r. now rewrite (poll_idle env id s Hres Hidle).
  - intros t rest Hr Ht.
    pose proof (poll_drive env id s t rest Hres Hr Ht) as (_ & Htk & Hran & _).
    split; assumption.
Qed.

Lemma unknown_handle_not_ready_witness :
  (99 ∉ live_ids two_queued) /\
  (99 ∉ result_id <$> results two_queued) /\
  fst (get_pending_task_result echo 99 two_queued) = VNone.
Proof.
  assert (H1 : 99 ∉ live_ids two_queued).
  { intros H. vm_compute in H.
    repeat (apply elem_of_cons in H as [H | H]; [discriminate |]).
    now apply elem_of_nil in H. }
  assert (H2 : 99 ∉ result_id <$> results two_queued).
  { intros H. vm_compute in H. now apply elem_of_nil in H. }
  split; [exact H1 |]. split; [exact H2 |].
  apply (unknown_handle_not_ready echo 99 two_queued H1 H2).
Defined.

(** ** Once the running flag stays up *)

(** With a task marked running a poll runs nothing: it claims a cached
    result or answers [None]. The flag stays up and the cache gets no new
    entry. *)
Lemma poll_while_running (env : Env) (id : Z) (s : State) :
  running s = true ->
  let r := get_pending_task_result env id s in
  running (snd r) = true /\ tasks (snd r) = tasks s /\
  trace (snd r) = trace s /\
  (forall h, h ∉ result_id <$> results s ->
             h ∉ result_id <$> results (snd r)) /\
  (id ∉ result_id <$> results s -> fst r = VNone).
Proof.
  intros Hr r. unfold r.
  destruct (cached id s) as [x|] eqn:Hc.
  - rewrite (poll_cached env id s x Hc).
    cbn [fst snd running tasks trace results set_results].
    repeat split; try assumption.
    + intros h Hh. now apply claimed_subset.
    + intros Hnot. apply cached_None in Hnot. congruence.
  - rewrite (poll_idle env id s Hc (or_introl Hr)). cbn [fst snd].
    repeat split; auto.
Qed.

Lemma run_ops_while_running (ops : list op) (s : State) :
  running s = true ->
  let r := run_ops ops s in
  running (snd r) = true /\
  tasks (snd r) = tasks s ++ (enqueued <$> submitted ops) /\
  ran (trace (snd r)) = ran (trace s) /\
  (forall h, h ∉ result_id <$> results s ->
             h ∉ result_id <$> results (snd r)).
Proof.
  revert s. induction ops as [|o ops IH]; intros s Hr.
  - cbn. rewrite app_nil_r. auto.
  - cbn zeta. rewrite run_ops_cons. cbn [snd].
    rewrite (submitted_cons o ops), fmap_app, app_assoc.
    destruct o as [new_id req kw | env id].
    + specialize (IH (snd (step (Submit new_id req kw) s)) Hr).
      cbn zeta in IH. destruct IH as (H1 & H2 & H3 & H4).
      repeat split; assumption.
    + pose proof (poll_while_running env id s Hr) as (P1 & P2 & P3 & P4 & _).
      cbn [step]. destruct (get_pending_task_result env id s) as [v s'].
      cbn [snd] in *.
      specialize (IH s' P1). cbn zeta in IH. destruct IH as (H1 & H2 & H3 & H4).
      rewrite P2 in H2. rewrite P3 in H3.
      cbn [submitted flat_map fmap list_fmap app]. rewrite app_nil_r.
      repeat split; auto.
Qed.

(** ** C2: the running flag after a failed drive step *)

Example two_queued_reached :
  snd (run_ops [Submit 1 (VObj "a") (VObj "{}");
                Submit 2 (VObj "b") (VObj "{}")] two_shards) = two_queued.
Proof. reflexivity. Qed.

(** C2, at the failing input. Two tasks are queued and the servers refuse
    the connection. The poll catches the failure of task 1, prints it and
    answers [None]; the cache and the rest of the queue are intact; but
    the running flag is still up, since line 166 is skipped by the
    exception and the handler does not lower it. From then on no sequence
    of submissions and polls, whatever the servers do, runs a coroutine
    or takes task 2 off the queue. *)
Theorem failed_drive_leaves_running_flag_up :
  let r := get_pending_task_result refused 1 two_queued in
  fst r = VNone /\
  List.last (trace (snd r)) (Print "") = Print "1, connection refused" /\
  results (snd r) = [] /\ tasks (snd r) = [queued 2 "b"] /\
  running (snd r) = true /\
  forall ops,
    let s' := snd (run_ops ops (snd r)) in
    running s' = true /\
    tasks s' = queued 2 "b" :: (enqueued <$> submitted ops) /\
    ran (trace s') = ran (trace (snd r)).
Proof.
  cbn zeta.
  assert (Hrun : running (snd (get_pending_task_result refused 1 two_queued))
                 = true) by (vm_compute; reflexivity).
  assert (Htk : tasks (snd (get_pending_task_result refused 1 two_queued))
                = [queued 2 "b"]) by (vm_compute; reflexivity).
  split; [vm_compute; reflexivity |]. split; [vm_compute; reflexivity |].
  split; [vm_compute; reflexivity |]. split; [exact Htk |].
  split; [exact Hrun |].
  intros ops.
  pose proof (run_ops_while_running ops _ Hrun) as (H1 & H2 & H3 & _).
  rewrite Htk in H2. repeat split; assumption.
Qed.

(** The same poll with servers that answer: the flag is lowered. *)
Example successful_drive_lowers_running_flag :
  running (snd (get_pending_task_result echo 1 two_queued)) = false.
Proof. vm_compute. reflexivity. Qed.

(** ** An identity handed out again *)

Lemma reissue_lawful : lawful_ids reissue two_shards.
Proof. lawful. Qed.

Example reissue_state :
  run_ops reissue two_shards =
  ([Handle 1; Handle 2; Answer VNone; Handle 1; Answer VNone],
   {| clients := [shard 50050; shard 50051];
      tasks := [queued 1 "c"];
      results := [{| result_id := 1; result_value := VObj "a" |};
                  {| result_id := 2; result_value := VObj "b" |}];
      running := false; in_flight := [];
      trace := trace (snd (run_ops reissue two_shards)) |}).
Proof. vm_compute. reflexivity. Qed.

(** ** C10: the handle of a task whose drive step failed *)

(** C10, at the failing input. After [reissue] the cache holds "a", the
    result of the first request, under handle 1, and the queue holds the
    third request, whose coroutine was given identity 1 as well. A poll
    for 3 drives that task and its fan-out fails; the failure is printed
    and nothing is cached for it. The next poll for handle 1 does not
    answer [None]: it answers "a", the result of the other request. *)
Theorem failed_handle_answers_stale_result :
  let ops := reissue ++ [Poll refused 3] in
  let s := snd (run_ops ops two_shards) in
  lawful_ids ops two_shards /\
  coro_id <$> ran (trace s) = [1; 2; 1] /\
  List.last (trace s) (Print "") = Print "1, connection refused" /\
  results s = results (snd (run_ops reissue two_shards)) /\
  fst (get_pending_task_result echo 1 s) = VObj "a" /\
  fst (get_pending_task_result echo 1 s) <> VNone.
Proof.
  cbn zeta. split; [lawful |].
  vm_compute. repeat split. discriminate.
Qed.

(** ** C8: claiming a cached result *)

Lemma step_unknown (id : Z) (o : op) (s : State) :
  unknown id s -> id ∉ coro_id <$> submitted [o] ->
  unknown id (snd (step o s)).
Proof.
  intros [Hlive Hres] Hsub. destruct o as [new_id req kw | env h]; cbn [step].
  - cbn [query_non_block snd]. split; [| exact Hres].
    unfold live_ids. cbn [tasks set_tasks]. rewrite fmap_app.
    intros Hin. apply elem_of_app in Hin as [Hin | Hin]; [now apply Hlive |].
    apply Hsub. exact Hin.
  - destruct (get_pending_task_result env h s) as [v s'] eqn:Hpoll.
    cbn [snd]. change s' with (snd (v, s')). rewrite <- Hpoll. clear Hpoll v s'.
    destruct (cached h s) as [x|] eqn:Hc.
    { rewrite (poll_cached env h s x Hc). cbn [snd]. split; [exact Hlive |].
      cbn [results set_results]. now apply claimed_subset. }
    destruct (running s) eqn:Hr.
    { rewrite (poll_idle env h s Hc (or_introl Hr)). now split. }
    destruct (tasks s) as [|t rest] eqn:Ht.
    { rewrite (poll_idle env h s Hc (or_intror Ht)). now split. }
    pose proof (poll_drive env h s t rest Hc Hr Ht) as (_ & Htk & _ & Hcase).
    assert (Hne : id <> task_id t /\ id ∉ task_id <$> rest).
    { unfold live_ids in Hlive. rewrite Ht in Hlive.
      cbn [fmap list_fmap] in Hlive. apply not_elem_of_cons in Hlive.
      exact Hlive. }
    destruct Hne as [Hne Hrest].
    split; [unfold live_ids; now rewrite Htk |].
    destruct (first_shard _ _ _ _) as [e | w].
    + destruct Hcase as (_ & -> & _). exact Hres.
    + destruct Hcase as (_ & _ & Hif).
      destruct (bool_decide (h = task_id t)); destruct Hif as [_ ->];
        [exact Hres |].
      rewrite fmap_app. intros Hin.
      apply elem_of_app in Hin as [Hin | Hin]; [now apply Hres |].
      cbn [fmap list_fmap result_id] in Hin.
      apply elem_of_cons in Hin as [Hin | Hin]; [contradiction |].
      now apply elem_of_nil in Hin.
Qed.

Lemma run_ops_unknown (id : Z) (ops : list op) (s : State) :
  unknown id s -> id ∉ coro_id <$> submitted ops ->
  unknown id (snd (run_ops ops s)).
Proof.
  revert s. induction ops as [|o ops IH]; intros s Hs Hsub; [exact Hs |].
  rewrite run_ops_cons. cbn [snd].
  rewrite (submitted_cons o ops), fmap_app in Hsub.
  apply not_elem_of_app in Hsub as [Ho Hops].
  apply IH; [| exact Hops]. now apply step_unknown.
Qed.

(** C8, at the failing input. After [reissue] the cache holds "a" under
    handle 1 and the queue holds a later task whose coroutine was given
    identity 1 as well. The first poll for 1 answers "a" and empties the
    cache of handle 1; the next poll for 1 does not answer [None]: it
    drives the queued task and answers "c". *)
Theorem claimed_handle_ready_again :
  let s := snd (run_ops reissue two_shards) in
  let first := get_pending_task_result echo 1 s in
  let second := get_pending_task_result echo 1 (snd first) in
  lawful_ids reissue two_shards /\
  cached 1 s = Some {| result_id := 1; result_value := VObj "a" |} /\
  fst first = VObj "a" /\ cached 1 (snd first) = None /\
  fst second = VObj "c" /\ fst second <> VNone.
Proof.
  cbn zeta. split; [exact reissue_lawful |].
  vm_compute. repeat split. discriminate.
Qed.

(** ** C4: the non-blocking submission *)

(** C4, at the failing input. A submission returns handle 7, the
    identity of its coroutine, without any call to a collaborator. A poll
    for 7 runs the task and returns its result; the coroutine is released
    with the item that held it. The coroutine of the next submission may
    be given the identity 7, which no live coroutine has, and the
    submission returns 7: the same handle has been issued twice. *)
Theorem handle_reissued_after_release :
  let ops := [Submit 7 (VObj "a") (VObj "{}"); Poll echo 7;
              Submit 7 (VObj "b") (VObj "{}")] in
  let r := run_ops ops two_shards in
  lawful_ids ops two_shards /\
  fst r = [Handle 7; Answer (VObj "a"); Handle 7] /\
  tasks (snd r) = [queued 7 "b"] /\
  trace (snd (run_ops [Submit 7 (VObj "a") (VObj "{}")] two_shards)) = [] /\
  ~ NoDup (handles (fst r)).
Proof.
  cbn zeta. split; [lawful |].
  split; [vm_compute; reflexivity |]. split; [vm_compute; reflexivity |].
  split; [vm_compute; reflexivity |].
  intros Hnd. vm_compute in Hnd.
  apply NoDup_cons in Hnd as [Hnotin _].
  apply Hnotin. apply elem_of_cons. now left.
Qed.

(** * Further properties of the code *)

(** ** The endpoint client: failures *)

(** X1. When the packing function of the entry raises, the call raises
    the same exception and the stub is never called. When the request
    packs but the transport fails, the call raises the transport's
    exception and the unpacking function is never called. *)
Theorem request_failures_propagate (env : Env) (self : MIIClient)
    (request_dict query_kwargs : value) (conversions : Conversions) (e : exn) :
  GRPC_METHOD_TABLE env !! task self = Some conversions ->
  (pack_request_to_proto conversions request_dict query_kwargs = inl e ->
   _request_async_response env self request_dict query_kwargs =
   ([CallPack request_dict query_kwargs], inl e)) /\
  (forall proto_request,
     pack_request_to_proto conversions request_dict query_kwargs
       = inr proto_request ->
     answer (rpc env (stub self) (method conversions) proto_request) = inl e ->
     _request_async_response env self request_dict query_kwargs =
     ([CallPack request_dict query_kwargs;
       CallStub (stub self) (method conversions) proto_request], inl e)).
Proof.
  intros Hconv. unfold _request_async_response, request_start.
  rewrite Hconv. split.
  - intros ->. reflexivity.
  - intros p -> Hans. cbn [complete request_finish]. rewrite Hans. reflexivity.
Qed.

Lemma request_failures_propagate_witness :
  _request_async_response strict
    {| stub := ("localhost", 50050); task := "fill-mask" |}
    (VObj "q") (VObj "{}")
  = ([CallPack (VObj "q") (VObj "{}")], inl (TypeError "missing key: query")) /\
  _request_async_response refused (shard 50050) (VObj "q") (VObj "{}")
  = ([CallPack (VObj "q") (VObj "{}");
      CallStub ("localhost", 50050) "GeneratorReply" (VObj "q")],
     inl (RpcError "connection refused")).
Proof.
  split.
  - apply (proj1 (request_failures_propagate strict
                    {| stub := ("localhost", 50050); task := "fill-mask" |}
                    (VObj "q") (VObj "{}") fill_mask
                    (TypeError "missing key: query") eq_refl)).
    reflexivity.
  - apply (proj2 (request_failures_propagate refused (shard 50050)
                    (VObj "q") (VObj "{}") text_generation
                    (RpcError "connection refused") eq_refl) (VObj "q"));
      reflexivity.
Defined.

(** X2. Whatever the table, the request and the servers, one call of
    [_request_async_response] packs at most once, calls the stub at most
    once, and only its own stub and only after packing, and unpacks at
    most once and only after the stub was called. *)
Theorem request_call_discipline (env : Env) (self : MIIClient)
    (request_dict query_kwargs : value) :
  let tr := fst (_request_async_response env self request_dict query_kwargs) in
  tr = [] \/
  tr = [CallPack request_dict query_kwargs] \/
  (exists method proto_request,
     tr = [CallPack request_dict query_kwargs;
           CallStub (stub self) method proto_request]) \/
  (exists method proto_request proto_response,
     tr = [CallPack request_dict query_kwargs;
           CallStub (stub self) method proto_request;
           CallUnpack proto_response]).
Proof.
  unfold _request_async_response, request_start.
  destruct (GRPC_METHOD_TABLE env !! task self) as [conv|]; [| now left].
  destruct (pack_request_to_proto conv request_dict query_kwargs) as [e | p];
    [right; now left |].
  cbn [complete]. unfold request_finish.
  destruct (answer (rpc env (stub self) (method conv) p)) as [e | resp].
  - right; right; left. exists (method conv), p. reflexivity.
  - destruct (unpack_response_from_proto conv) as [unpack|].
    + right; right; right. exists (method conv), p, resp. reflexivity.
    + right; right; left. exists (method conv), p. reflexivity.
Qed.

(** ** [_initialize_grpc_client] on an instance that has its attributes *)

Lemma open_channels_spec (indices : list Z) (channels : list address)
    (self : instance) (p : Z) (l : list address) :
  self !! "port_number" = Some (PInt p) ->
  self !! "stubs" = Some (PStubs l) ->
  open_channels indices channels self =
  inr (<["stubs" := PStubs (l ++ ((fun i => ("localhost", p + i)) <$> indices))]>
         self).
Proof.
  revert channels self l.
  induction indices as [|i indices IH]; intros channels self l Hp Hs.
  - cbn [open_channels fmap list_fmap]. rewrite app_nil_r.
    now rewrite insert_id.
  - cbn [open_channels]. unfold getattr at 1. rewrite Hp. cbn [bind as_int].
    unfold getattr at 1. rewrite Hs. cbn [bind].
    rewrite (IH _ _ (l ++ [("localhost", p + i)])).
    + rewrite insert_insert_eq, <- app_assoc. reflexivity.
    + rewrite lookup_insert_ne by discriminate. exact Hp.
    + apply lookup_insert_eq.
Qed.

(** X3. On an instance that has [num_gpus] (an int [n]), [port_number]
    (an int [p]) and [stubs] (a list), [_initialize_grpc_client] returns
    normally; it appends to [self.stubs] one stub per [i] in [range(n)],
    for the address localhost:[p + i], in order, and changes no other
    attribute. No stub is added when [n] is not positive. *)
Theorem initialize_grpc_client_opens_channels (self : instance) (n p : Z)
    (l : list address) :
  self !! "num_gpus" = Some (PInt n) ->
  self !! "port_number" = Some (PInt p) ->
  self !! "stubs" = Some (PStubs l) ->
  exists self',
    _initialize_grpc_client self = inr self' /\
    self' !! "stubs" =
      Some (PStubs (l ++ ((fun i => ("localhost", p + i)) <$> seqZ 0 n))) /\
    (forall name, name <> "stubs" -> self' !! name = self !! name) /\
    (n <= 0 -> self' = self).
Proof.
  intros Hn Hp Hs. eexists. split; [| split; [| split]].
  - unfold _initialize_grpc_client, getattr. rewrite Hn. cbn [bind as_int].
    apply (open_channels_spec _ _ _ p l Hp Hs).
  - apply lookup_insert_eq.
  - intros name Hname. now rewrite lookup_insert_ne.
  - intros Hle. rewrite seqZ_nil by lia. cbn [fmap list_fmap].
    rewrite app_nil_r. now apply insert_id.
Qed.

Lemma initialize_grpc_client_opens_channels_witness :
  exists self',
    _initialize_grpc_client
      (<["num_gpus" := PInt 2]>
         (<["port_number" := PInt 50050]>
            (<["stubs" := PStubs [("localhost", 1)]]> ∅))) = inr self' /\
    self' !! "stubs" =
      Some (PStubs [("localhost", 1); ("localhost", 50050); ("localhost", 50051)]).
Proof.
  set (self := <["num_gpus" := PInt 2]>
                 (<["port_number" := PInt 50050]>
                    (<["stubs" := PStubs [("localhost", 1)]]> ∅))).
  assert (Hn : self !! "num_gpus" = Some (PInt 2))
    by (vm_compute; reflexivity).
  assert (Hp : self !! "port_number" = Some (PInt 50050))
    by (vm_compute; reflexivity).
  assert (Hs : self !! "stubs" = Some (PStubs [("localhost", 1)]))
    by (vm_compute; reflexivity).
  destruct (initialize_grpc_client_opens_channels self 2 50050
              [("localhost", 1)] Hn Hp Hs) as (self' & H1 & H2 & _).
  exists self'. split; [exact H1 | exact H2].
Defined.

(** ** Resolving a deployment *)

(** X4. The ports [mii_query_handle] passes for the shards: as many as
    [tensor_parallel] says (none when it is not positive), the one of
    index [i] being [port_number + i], all distinct. *)
Theorem shard_ports_consecutive (mii_configs : MIIConfig) :
  length (shard_ports mii_configs) = Z.to_nat (tensor_parallel mii_configs) /\
  (forall i : nat,
     Z.of_nat i < tensor_parallel mii_configs ->
     shard_ports mii_configs !! i
       = Some (port_number mii_configs + Z.of_nat i)) /\
  NoDup (shard_ports mii_configs).
Proof.
  unfold shard_ports. split; [| split].
  - rewrite length_fmap. apply length_seqZ.
  - intros i Hi. rewrite list_lookup_fmap, lookup_seqZ_lt by exact Hi.
    reflexivity.
  - apply NoDup_fmap_2_strong; [| apply NoDup_seqZ].
    intros x y _ _ Heq. lia.
Qed.

Lemma shard_ports_consecutive_witness :
  shard_ports (two_gpus false) !! 1%nat = Some 50051.
Proof.
  apply (proj1 (proj2 (shard_ports_consecutive (two_gpus false))) 1%nat).
  reflexivity.
Defined.

(** X5. [_get_deployment_info] returns a task name and a configuration
    exactly when the score file can be imported, holds a task that is
    not [None] and a configuration dict, and [MIIConfig] accepts that
    dict; the name and the configuration are then those. A score file
    with no task entry raises the KeyError of the task key, whatever else
    it holds. *)
Theorem deployment_info_returns_iff (d : Deployment) (deployment_name : string) :
  (forall task_name mii_configs,
     _get_deployment_info d deployment_name = inr (task_name, mii_configs) <->
     exists configs mii_configs_dict,
       import_score_file d deployment_name = inr configs /\
       configs !! TASK_NAME_KEY d = Some (VObj task_name) /\
       configs !! MII_CONFIGS_KEY d = Some mii_configs_dict /\
       new_MIIConfig d mii_configs_dict = inr mii_configs) /\
  (forall configs,
     import_score_file d deployment_name = inr configs ->
     configs !! TASK_NAME_KEY d = None ->
     _get_deployment_info d deployment_name = inl (KeyError (TASK_NAME_KEY d))).
Proof.
  split.
  - intros task_name mii_configs. unfold _get_deployment_info, getitem. split.
    + destruct (import_score_file d deployment_name) as [e | configs]
        eqn:Himport; [discriminate |].
      destruct (configs !! TASK_NAME_KEY d) as [task|] eqn:Htask;
        [| discriminate].
      destruct (configs !! MII_CONFIGS_KEY d) as [dict|] eqn:Hd;
        [| discriminate].
      destruct (new_MIIConfig d dict) as [e | cfg] eqn:Hcfg; [discriminate |].
      destruct task as [| name]; [discriminate |].
      intros [= <- <-]. exists configs, dict. repeat split; assumption.
    + intros (configs & dict & -> & -> & -> & ->). reflexivity.
  - intros configs Himport Hnone. unfold _get_deployment_info, getitem.
    rewrite Himport, Hnone. reflexivity.
Qed.

Lemma deployment_info_returns_iff_witness :
  _get_deployment_info (local_deployment true) "gpt2"
    = inr ("text-generation", two_gpus true) /\
  _get_deployment_info empty_score_file "gpt2" = inl (KeyError "task_name").
Proof.
  split.
  - apply (proj1 (deployment_info_returns_iff (local_deployment true) "gpt2")).
    eexists _, (VObj "{...}").
    split; [reflexivity |]. repeat split; vm_compute; reflexivity.
  - apply (proj2 (deployment_info_returns_iff empty_score_file "gpt2") ∅);
      [reflexivity | apply lookup_empty].
Defined.

(** The constructor of the fan-out client returns no instance. *)
Lemma tensor_parallel_init_raises (get_task : string -> outcome string)
    (task_name host : string) (ports : list Z) (self : instance) :
  MIITensorParallelClient_init get_task task_name host ports <> inr self.
Proof.
  unfold MIITensorParallelClient_init.
  destruct (get_task task_name) as [e | t] eqn:Ht.
  - unfold init_attributes. rewrite Ht. discriminate.
  - rewrite (init_attributes_ok _ _ host ports _ Ht). cbn [bind].
    unfold _initialize_grpc_client.
    rewrite getattr_unassigned; [discriminate | absent | absent].
Qed.

(** X6. [mii_query_handle] returns a handle only for a deployment with
    load balancing enabled, and the handle is then the single-endpoint
    client for localhost and the configured port. For a deployment with
    load balancing disabled whose task [get_task] accepts, it raises the
    AttributeError of [num_gpus] instead of returning the fan-out
    client. *)
Theorem query_handle_only_with_load_balancing (d : Deployment)
    (get_task : string -> outcome string) (deployment_name : string) :
  (forall h,
     mii_query_handle d get_task deployment_name = inr h ->
     exists task_name mii_configs t,
       _get_deployment_info d deployment_name = inr (task_name, mii_configs) /\
       enable_load_balancing mii_configs = true /\
       get_task task_name = inr t /\
       h = SingleEndpoint
             {| stub := ("localhost", port_number mii_configs); task := t |}) /\
  (forall task_name mii_configs t,
     _get_deployment_info d deployment_name = inr (task_name, mii_configs) ->
     enable_load_balancing mii_configs = false ->
     get_task task_name = inr t ->
     mii_query_handle d get_task deployment_name
       = inl (Raised (no_attribute "num_gpus"))).
Proof.
  unfold mii_query_handle. split.
  - intros h.
    destruct (_get_deployment_info d deployment_name) as [e | [name cfg]];
      [discriminate |].
    destruct (enable_load_balancing cfg) eqn:Hlb.
    + unfold MIIClient_init.
      destruct (get_task name) as [e | t] eqn:Ht; [discriminate |].
      cbn [bind]. intros [= <-]. exists name, cfg, t. auto.
    + destruct (MIITensorParallelClient_init get_task name "localhost"
                  (shard_ports cfg)) as [e | self] eqn:Hinit; [discriminate |].
      exfalso. exact (tensor_parallel_init_raises _ _ _ _ _ Hinit).
  - intros name cfg t -> -> Ht.
    unfold MIITensorParallelClient_init.
    rewrite (init_attributes_ok _ _ "localhost" (shard_ports cfg) _ Ht).
    cbn [bind]. unfold _initialize_grpc_client.
    rewrite getattr_unassigned; [reflexivity | absent | absent].
Qed.

Lemma query_handle_only_with_load_balancing_witness :
  mii_query_handle (local_deployment true) known_tasks "gpt2"
    = inr (SingleEndpoint (shard 50050)) /\
  mii_query_handle (local_deployment false) known_tasks "gpt2"
    = inl (Raised (AttributeError
        "'MIITensorParallelClient' object has no attribute 'num_gpus'")).
Proof.
  assert (Hrun : mii_query_handle (local_deployment true) known_tasks "gpt2"
                 = inr (SingleEndpoint (shard 50050)))
    by (vm_compute; reflexivity).
  split.
  - destruct (proj1 (query_handle_only_with_load_balancing
                       (local_deployment true) known_tasks "gpt2") _ Hrun)
      as (name & cfg & t & _ & _ & _ & _). exact Hrun.
  - apply (proj2 (query_handle_only_with_load_balancing
                    (local_deployment false) known_tasks "gpt2")
             "text-generation" (two_gpus false) "text-generation");
      vm_compute; reflexivity.
Defined.

(** ** The blocking fan-out: edge cases and failures *)

(** X7. On an instance with no client, [query] raises IndexError (the
    subscript [responses[0]] of line 125): no request is packed and no
    remote call is started, and the queue, the cache and the running flag
    are as they were. *)
Theorem query_without_clients (env : Env) (request_dict query_kwargs : value)
    (s : State) :
  clients s = [] ->
  let r := query env request_dict query_kwargs s in
  fst r = inl (IndexError "list index out of range") /\
  same_registry s (snd r) /\
  exists added,
    trace (snd r) = trace s ++ added /\
    Forall (fun e => is_request e = false) added.
Proof.
  intros Hcs r.
  split; [unfold r; rewrite query_spec, Hcs; reflexivity |].
  pose proof (run_until_complete_spec env
    {| coro_id := 0; coro_request := request_dict;
       coro_kwargs := query_kwargs |} s) as (_ & Hsame & _).
  assert (Hsnd : snd r =
    snd (run_until_complete env
           {| coro_id := 0; coro_request := request_dict;
              coro_kwargs := query_kwargs |} s)).
  { unfold r, query. destruct (run_until_complete env _ s) as [[e | resp] s'];
      reflexivity. }
  rewrite Hsnd. split; [exact Hsame |].
  unfold run_until_complete. cbn zeta.
  change (clients (emit ?ev s)) with (clients s). rewrite Hcs.
  cbn [create_tasks snd trace emit].
  exists [RunCoro {| coro_id := 0; coro_request := request_dict;
                     coro_kwargs := query_kwargs |}].
  split; [| repeat constructor].
  rewrite app_nil_r. reflexivity.
Qed.

Lemma query_without_clients_witness :
  fst (query echo (VObj "q") (VObj "{}") (initial_state []))
  = inl (IndexError "list index out of range").
Proof.
  apply (query_without_clients echo (VObj "q") (VObj "{}")
           (initial_state []) eq_refl).
Defined.

(** X8. When the call of the shard of index 0 raises, [query] raises the
    same exception, whatever the other shards answer and however early
    they answer. *)
Theorem query_raises_first_failure (env : Env)
    (request_dict query_kwargs : value) (s : State) (first : MIIClient)
    (others : list MIIClient) (e : exn) :
  clients s = first :: others ->
  snd (_request_async_response env first request_dict query_kwargs) = inl e ->
  fst (query env request_dict query_kwargs s) = inl e.
Proof.
  intros Hcs Hfirst. rewrite query_spec, Hcs. exact Hfirst.
Qed.

Lemma query_raises_first_failure_witness :
  snd (_request_async_response first_refuses (shard 50051) (VObj "q") (VObj "{}"))
    = inr (VObj "hola") /\
  fst (query first_refuses (VObj "q") (VObj "{}") two_shards)
    = inl (RpcError "connection refused").
Proof.
  split; [vm_compute; reflexivity |].
  apply (query_raises_first_failure first_refuses (VObj "q") (VObj "{}")
           two_shards (shard 50050) [shard 50051]).
  - reflexivity.
  - vm_compute. reflexivity.
Defined.

(** X9. [query] neither reads nor writes the registry: whatever it
    yields, the queue, the cache and the running flag are as before, and
    what it yields is the same in any two states with the same clients,
    for instance with the running flag up or down. *)
Theorem query_independent_of_registry (env : Env)
    (request_dict query_kwargs : value) (s : State) :
  same_registry s (snd (query env request_dict query_kwargs s)) /\
  forall s',
    clients s' = clients s ->
    fst (query env request_dict query_kwargs s')
    = fst (query env request_dict query_kwargs s).
Proof.
  split.
  - pose proof (run_until_complete_spec env
      {| coro_id := 0; coro_request := request_dict;
         coro_kwargs := query_kwargs |} s) as (_ & Hsame & _).
    unfold query. destruct (run_until_complete env _ s) as [[e | resp] s1];
      exact Hsame.
  - intros s' Hcs. rewrite !query_spec, Hcs. reflexivity.
Qed.

Lemma query_independent_of_registry_witness :
  fst (query slow_first (VObj "q") (VObj "{}") (set_running true two_queued))
  = fst (query slow_first (VObj "q") (VObj "{}") two_shards).
Proof.
  apply (proj2 (query_independent_of_registry slow_first (VObj "q") (VObj "{}")
                  two_shards)).
  reflexivity.
Defined.

Lemma create_tasks_unknown (env : Env) (cs : list MIIClient) (req kw : value) :
  Forall (fun cl => GRPC_METHOD_TABLE env !! task cl = None) cs ->
  create_tasks env cs req kw =
  ([], (fun cl => Done (inl (ValueError ("unknown task: " +:+ task cl)))) <$> cs).
Proof.
  induction 1 as [|cl cs Hcl _ IH]; [reflexivity |].
  rewrite create_tasks_cons, IH. unfold request_start. rewrite Hcl.
  reflexivity.
Qed.

(** X10. When the conversion table has no entry for the task of any
    client, [query] raises the unknown-task error of the first client; no
    request is packed and no remote call is started, for any shard. *)
Theorem query_unknown_task_sends_nothing (env : Env)
    (request_dict query_kwargs : value) (s : State) (first : MIIClient)
    (others : list MIIClient) :
  clients s = first :: others ->
  Forall (fun cl => GRPC_METHOD_TABLE env !! task cl = None) (clients s) ->
  let r := query env request_dict query_kwargs s in
  fst r = inl (ValueError ("unknown task: " +:+ task first)) /\
  exists added,
    trace (snd r) = trace s ++ added /\
    Forall (fun e => is_request e = false) added.
Proof.
  intros Hcs Hall r. split.
  - unfold r. rewrite query_spec, Hcs. unfold first_shard.
    rewrite Hcs in Hall. apply Forall_cons in Hall as [Hfirst _].
    unfold _request_async_response, request_start. rewrite Hfirst.
    reflexivity.
  - unfold r, query, run_until_complete. cbn zeta.
    change (clients (emit ?ev s)) with (clients s).
    rewrite (create_tasks_unknown env (clients s) _ _ Hall), Hcs.
    cbn [fmap list_fmap turns_left app run_loop].
    cbn [fst snd trace emit set_in_flight].
    exists [RunCoro {| coro_id := 0; coro_request := request_dict;
                       coro_kwargs := query_kwargs |}].
    split; [| repeat constructor].
    rewrite !app_nil_r. reflexivity.
Qed.

Lemma query_unknown_task_sends_nothing_witness :
  fst (query strict (VObj "q") (VObj "{}") two_shards)
  = inl (ValueError "unknown task: text-generation").
Proof.
  apply (query_unknown_task_sends_nothing strict (VObj "q") (VObj "{}")
           two_shards (shard 50050) [shard 50051] eq_refl).
  repeat constructor.
Defined.

(** ** The registry: how submissions and polls compose *)

Lemma run_outcome (env : Env) (c : Coro) (s : State) :
  fst (run_until_complete env c s) =
  match first_shard env (clients s) (coro_request c) (coro_kwargs c) with
  | inl e => inl e
  | inr v => inr (Done (inr v))
  end.
Proof. apply (run_until_complete_spec env c s). Qed.

(** X11. On an idle registry with an empty queue and nothing cached under
    the new handle, a submission followed by a poll for the handle it
    returned does what the blocking [query] does for the same request:
    the poll returns the value [query] returns, with the queue empty
    again, the cache as it was and the running flag down; when [query]
    raises, the poll answers [None]. *)
Theorem submit_then_poll_is_query (env : Env) (new_id : Z)
    (request_dict query_kwargs : value) (s : State) :
  tasks s = [] -> running s = false -> cached new_id s = None ->
  let submitted_state := snd (query_non_block new_id request_dict query_kwargs s) in
  let handle := fst (query_non_block new_id request_dict query_kwargs s) in
  let r := get_pending_task_result env handle submitted_state in
  match fst (query env request_dict query_kwargs s) with
  | inr v =>
      fst r = v /\ tasks (snd r) = [] /\ results (snd r) = results s /\
      running (snd r) = false
  | inl _ => fst r = VNone /\ tasks (snd r) = [] /\ results (snd r) = results s
  end.
Proof.
  intros Ht Hr Hc. cbn zeta. rewrite query_spec.
  cbn [query_non_block fst snd coro_id]. rewrite Ht. cbn [app].
  set (t := {| task_id := new_id;
               coro := {| coro_id := new_id; coro_request := request_dict;
                          coro_kwargs := query_kwargs |};
               run := false |}).
  pose proof (poll_drive env new_id (set_tasks [t] s) t [] Hc Hr eq_refl)
    as (_ & Htk & _ & Hcase).
  change (clients (set_tasks [t] s)) with (clients s) in Hcase.
  change (results (set_tasks [t] s)) with (results s) in Hcase.
  cbn [coro coro_request coro_kwargs t] in Hcase.
  destruct (first_shard env (clients s) request_dict query_kwargs) as [e | v].
  - destruct Hcase as (H1 & H2 & _). auto.
  - destruct Hcase as (H1 & _ & Hif).
    rewrite bool_decide_eq_true_2 in Hif by reflexivity.
    destruct Hif as [H2 H3]. auto.
Qed.

Lemma submit_then_poll_is_query_witness :
  fst (query slow_first (VObj "q") (VObj "{}") two_shards) = inr (VObj "hello") /\
  fst (get_pending_task_result slow_first 7
         (snd (query_non_block 7 (VObj "q") (VObj "{}") two_shards)))
  = VObj "hello".
Proof.
  assert (Hq : fst (query slow_first (VObj "q") (VObj "{}") two_shards)
               = inr (VObj "hello")) by (vm_compute; reflexivity).
  split; [exact Hq |].
  pose proof (submit_then_poll_is_query slow_first 7 (VObj "q") (VObj "{}")
                two_shards eq_refl eq_refl eq_refl) as H.
  cbn zeta in H. rewrite Hq in H. apply H.
Defined.

(** X12. A caller that only polls a handle the registry does not hold
    drains the queue into the cache, one task per poll and in queue
    order: with servers that answer every queued request, after [n] such
    polls the first [n] queued tasks have run, in order, their results
    are appended to the cache in that order, the other tasks are still
    queued, the running flag is down and every poll answered [None]. *)
Theorem dummy_polls_drain_queue (env : Env) (id : Z) (n : nat) (s : State) :
  running s = false ->
  id ∉ live_ids s ->
  id ∉ result_id <$> results s ->
  Forall (fun t => exists v,
            first_shard env (clients s) (coro_request (coro t))
                        (coro_kwargs (coro t)) = inr v) (tasks s) ->
  let r := run_ops (replicate n (Poll env id)) s in
  fst r = replicate n (Answer VNone) /\
  tasks (snd r) = drop n (tasks s) /\
  results (snd r) =
    results s ++ (cache_entry env (clients s) <$> take n (tasks s)) /\
  running (snd r) = false /\
  ran (trace (snd r)) = ran (trace s) ++ (coro <$> take n (tasks s)).
Proof.
  revert s. induction n as [|n IH]; intros s Hr Hlive Hres Hall.
  - cbn. rewrite !app_nil_r. rewrite drop_0. auto.
  - cbn zeta. cbn [replicate]. rewrite run_ops_cons. cbn [step fst snd].
    destruct (tasks s) as [|t rest] eqn:Ht.
    + assert (Hc : cached id s = None) by now apply cached_None.
      rewrite (poll_idle env id s Hc (or_intror Ht)). cbn [fst snd].
      specialize (IH s Hr Hlive Hres). rewrite Ht in IH.
      specialize (IH (Forall_nil_2 _)). cbn zeta in IH.
      destruct IH as (I1 & I2 & I3 & I4 & I5).
      rewrite drop_nil in I2. rewrite take_nil in I3, I5.
      rewrite I1, I2, I3, I4, I5. rewrite drop_nil, take_nil. auto.
    + assert (Hc : cached id s = None) by now apply cached_None.
      pose proof (poll_drive env id s t rest Hc Hr Ht)
        as (Hcl & Htk & Hran & Hcase).
      apply Forall_cons in Hall as [[v Hv] Hrest].
      assert (Hne : id <> task_id t /\ id ∉ task_id <$> rest).
      { unfold live_ids in Hlive. rewrite Ht in Hlive.
        cbn [fmap list_fmap] in Hlive. now apply not_elem_of_cons in Hlive. }
      destruct Hne as [Hne Hnotin].
      rewrite Hv in Hcase. destruct Hcase as (Hrn & _ & Hif).
      rewrite bool_decide_eq_false_2 in Hif by exact Hne.
      destruct Hif as [Hans Hcache].
      destruct (get_pending_task_result env id s) as [a s1].
      cbn [fst snd] in *. subst a.
      assert (Hentry : cache_entry env (clients s) t =
                       {| result_id := task_id t; result_value := v |}).
      { unfold cache_entry, fanout_value. now rewrite Hv. }
      specialize (IH s1 Hrn). rewrite Htk, Hcl, Hcache in IH.
      assert (Hres1 : id ∉ result_id <$>
                (results s ++ [{| result_id := task_id t; result_value := v |}])).
      { rewrite fmap_app. intros Hin.
        apply elem_of_app in Hin as [Hin | Hin]; [now apply Hres |].
        cbn [fmap list_fmap result_id] in Hin.
        apply elem_of_cons in Hin as [Hin | Hin]; [contradiction |].
        now apply elem_of_nil in Hin. }
      unfold live_ids in IH. rewrite Htk in IH.
      specialize (IH Hnotin Hres1 Hrest). cbn zeta in IH.
      destruct IH as (I1 & I2 & I3 & I4 & I5).
      rewrite I1, I2, I3, I4, I5, Hran.
      cbn [drop take fmap list_fmap replicate].
      rewrite Hentry, <- !app_assoc. auto.
Qed.

Lemma dummy_polls_drain_queue_witness :
  let r := run_ops (replicate 2 (Poll echo 99)) two_queued in
  fst r = [Answer VNone; Answer VNone] /\
  tasks (snd r) = [] /\
  results (snd r) = [{| result_id := 1; result_value := VObj "a" |};
                     {| result_id := 2; result_value := VObj "b" |}].
Proof.
  assert (H1 : 99 ∉ live_ids two_queued) by lawful.
  assert (H2 : 99 ∉ result_id <$> results two_queued) by lawful.
  assert (H3 : Forall (fun t => exists v,
            first_shard echo (clients two_queued) (coro_request (coro t))
                        (coro_kwargs (coro t)) = inr v) (tasks two_queued)).
  { repeat constructor; eexists; vm_compute; reflexivity. }
  pose proof (dummy_polls_drain_queue echo 99 2 two_queued eq_refl H1 H2 H3)
    as (R1 & R2 & R3 & _).
  cbn zeta. split; [exact R1 |]. split; [exact R2 |]. exact R3.
Defined.

(** X13. The ["run"] entry of a queue item is written once, as False, by
    [query_non_block], and no poll ever sets it: if it is False for every
    queued item, it is so after any sequence of submissions and polls. *)
Theorem run_entry_never_set (ops : list op) (s : State) :
  Forall (fun t => run t = false) (tasks s) ->
  Forall (fun t => run t = false) (tasks (snd (run_ops ops s))).
Proof.
  revert s. induction ops as [|o ops IH]; intros s Hall; [exact Hall |].
  rewrite run_ops_cons. cbn [snd]. apply IH.
  destruct o as [new_id req kw | env id]; cbn [step].
  - cbn [query_non_block snd tasks set_tasks]. apply Forall_app.
    split; [exact Hall | repeat constructor].
  - pose proof (poll_queue env id s) as (_ & Hq). cbn zeta in Hq.
    destruct (get_pending_task_result env id s) as [v s']. cbn [snd] in *.
    destruct Hq as [[-> _] | (t & rest & _ & Ht & -> & _)]; [exact Hall |].
    rewrite Ht in Hall. now apply Forall_cons in Hall as [_ Hall].
Qed.

Lemma run_entry_never_set_witness :
  Forall (fun t => run t = false) (tasks two_shards) /\
  Forall (fun t => run t = false)
         (tasks (snd (run_ops (reissue ++ [Poll refused 3]) two_shards))).
Proof.
  assert (H : Forall (fun t => run t = false) (tasks two_shards))
    by apply Forall_nil_2.
  split; [exact H |].
  apply (run_entry_never_set (reissue ++ [Poll refused 3]) two_shards H).
Defined.

(** X14. The running flag is up after a poll exactly when it was up
    before, or the poll drove the queue (nothing cached under the
    requested handle, a task at the head) and the coroutine of the head
    task raised. *)
Theorem running_flag_up_iff_drive_raised (env : Env) (id : Z) (s : State) :
  running (snd (get_pending_task_result env id s)) = true <->
  running s = true \/
  (cached id s = None /\
   exists t rest e,
     tasks s = t :: rest /\
     fst (run_until_complete env (coro t) s) = inl e).
Proof.
  destruct (cached id s) as [x|] eqn:Hc.
  { rewrite (poll_cached env id s x Hc). cbn [snd running set_results].
    split; [now left |]. intros [H | [H _]]; [exact H | discriminate]. }
  destruct (running s) eqn:Hr.
  { rewrite (poll_idle env id s Hc (or_introl Hr)). cbn [snd].
    split; [now left | intros _; exact Hr]. }
  destruct (tasks s) as [|t rest] eqn:Ht.
  { rewrite (poll_idle env id s Hc (or_intror Ht)). cbn [snd]. rewrite Hr.
    split; [discriminate |].
    intros [H | (_ & t & rest & e & H & _)]; discriminate. }
  pose proof (poll_drive env id s t rest Hc Hr Ht) as (_ & _ & _ & Hcase).
  pose proof (run_outcome env (coro t) s) as Hout.
  destruct (first_shard env (clients s) (coro_request (coro t))
              (coro_kwargs (coro t))) as [e | v].
  - destruct Hcase as (_ & _ & Hrn & _). rewrite Hrn.
    split; [| reflexivity]. intros _. right. split; [reflexivity |].
    exists t, rest, e. split; [reflexivity | exact Hout].
  - destruct Hcase as (Hrn & _). rewrite Hrn.
    split; [discriminate |].
    intros [H | (_ & t' & rest' & e & Heq & Hraise)]; [discriminate |].
    injection Heq as <- <-. rewrite Hout in Hraise. discriminate.
Qed.

Lemma find_app_none {A : Type} (f : A -> bool) (l l' : list A) :
  List.find f l = None -> List.find f (l ++ l') = List.find f l'.
Proof.
  induction l as [|x l IH]; [reflexivity |].
  cbn [List.find app]. destruct (f x); [discriminate | exact IH].
Qed.

Lemma filter_none {A : Type} (f : A -> bool) (l : list A) :
  List.find f l = None -> List.filter (fun x => negb (f x)) l = l.
Proof.
  induction l as [|x l IH]; [reflexivity |].
  cbn [List.find List.filter]. destruct (f x); [discriminate |].
  intros H. cbn [negb]. now rewrite IH.
Qed.

(** X15. A result that a poll for another handle produced is delivered
    by the next poll for its own handle: when a poll for [id] drives the
    head task [t], whose handle differs from [id] and has no entry in the
    cache, and the coroutine returns [v], then a following poll for the
    handle of [t] returns [v] whatever the servers do, runs nothing, and
    leaves the cache as it was before the two polls. *)
Theorem cached_result_delivered_to_own_handle (env env' : Env) (id : Z)
    (s : State) (t : Task) (rest : list Task) (response : shard_task)
    (v : value) :
  cached id s = None -> running s = false -> tasks s = t :: rest ->
  id <> task_id t ->
  task_id t ∉ result_id <$> results s ->
  fst (run_until_complete env (coro t) s) = inr response ->
  result response = inr v ->
  let s1 := snd (get_pending_task_result env id s) in
  let r := get_pending_task_result env' (task_id t) s1 in
  fst r = v /\ results (snd r) = results s /\ tasks (snd r) = rest /\
  trace (snd r) = trace s1.
Proof.
  intros Hc Hr Ht Hne Hfresh Hrun Hres s1 r.
  pose proof (run_returns env (coro t) s response v Hrun Hres) as Hfirst.
  pose proof (poll_drive env id s t rest Hc Hr Ht) as (_ & Htk & _ & Hcase).
  fold s1 in Htk, Hcase. rewrite Hfirst in Hcase.
  destruct Hcase as (_ & _ & Hif).
  rewrite bool_decide_eq_false_2 in Hif by exact Hne.
  destruct Hif as [_ Hcache].
  apply cached_None in Hfresh. unfold cached in Hfresh.
  assert (Hhit : cached (task_id t) s1 =
                 Some {| result_id := task_id t; result_value := v |}).
  { unfold cached. rewrite Hcache, (find_app_none _ _ _ Hfresh).
    cbn [List.find result_id]. now rewrite bool_decide_eq_true_2. }
  unfold r. rewrite (poll_cached env' (task_id t) s1 _ Hhit).
  cbn [fst snd result_value results tasks trace set_results].
  repeat split; try assumption.
  rewrite Hcache, List.filter_app, (filter_none _ _ Hfresh).
  cbn [List.filter result_id]. rewrite bool_decide_eq_true_2 by reflexivity.
  cbn [negb]. apply app_nil_r.
Qed.

Lemma cached_result_delivered_to_own_handle_witness :
  fst (get_pending_task_result refused 1
         (snd (get_pending_task_result echo 2 two_queued))) = VObj "a".
Proof.
  assert (Hfresh : task_id (queued 1 "a") ∉ result_id <$> results two_queued)
    by lawful.
  assert (Hrun : fst (run_until_complete echo (coro (queued 1 "a")) two_queued)
                 = inr (Done (inr (VObj "a")))) by (vm_compute; reflexivity).
  apply (cached_result_delivered_to_own_handle echo refused 2 two_queued
           (queued 1 "a") [queued 2 "b"] (Done (inr (VObj "a"))) (VObj "a")
           eq_refl eq_refl eq_refl ltac:(discriminate) Hfresh Hrun eq_refl).
Defined.

(** X16. Once a drive step has raised, the registry stalls: after the
    poll whose head task raised, no sequence of submissions and polls
    runs a coroutine or removes a task; the queue is the rest of the old
    queue followed by the new submissions, and every poll for a handle
    with no cached result answers [None]. *)
Theorem registry_stalls_after_raising_drive (env : Env) (id : Z) (s : State)
    (t : Task) (rest : list Task) (e : exn) :
  cached id s = None -> running s = false -> tasks s = t :: rest ->
  fst (run_until_complete env (coro t) s) = inl e ->
  let s1 := snd (get_pending_task_result env id s) in
  forall ops,
    let s2 := snd (run_ops ops s1) in
    tasks s2 = rest ++ (enqueued <$> submitted ops) /\
    ran (trace s2) = ran (trace s) ++ [coro t] /\
    forall env' h,
      h ∉ result_id <$> results s2 ->
      get_pending_task_result env' h s2 = (VNone, s2).
Proof.
  intros Hc Hr Ht Hrun s1 ops s2.
  pose proof (run_raises env (coro t) s e Hrun) as Hfirst.
  pose proof (poll_drive env id s t rest Hc Hr Ht) as (_ & Htk & Hran & Hcase).
  fold s1 in Htk, Hran, Hcase. rewrite Hfirst in Hcase.
  destruct Hcase as (_ & _ & Hrn & _).
  pose proof (run_ops_while_running ops s1 Hrn) as (Hrn2 & Htk2 & Hran2 & _).
  fold s2 in Hrn2, Htk2, Hran2.
  rewrite Htk in Htk2. rewrite Hran in Hran2.
  split; [exact Htk2 |]. split; [exact Hran2 |].
  intros env' h Hh. apply poll_idle; [now apply cached_None | now left].
Qed.

Lemma registry_stalls_after_raising_drive_witness :
  tasks (snd (run_ops [Poll echo 2; Submit 3 (VObj "c") (VObj "{}"); Poll echo 3]
                (snd (get_pending_task_result refused 1 two_queued))))
  = [queued 2 "b"; queued 3 "c"].
Proof.
  assert (Hrun : fst (run_until_complete refused (coro (queued 1 "a")) two_queued)
                 = inl (RpcError "connection refused"))
    by (vm_compute; reflexivity).
  apply (registry_stalls_after_raising_drive refused 1 two_queued
           (queued 1 "a") [queued 2 "b"] (RpcError "connection refused")
           eq_refl eq_refl eq_refl Hrun
           [Poll echo 2; Submit 3 (VObj "c") (VObj "{}"); Poll echo 3]).
Defined.

(** ** The cache: claimed results and failed tasks *)

(** X17. When the cache has an entry under [id], a poll for [id] answers
    the first such entry and removes every entry under [id]; it runs
    nothing and leaves the queue, the running flag and the trace alone.
    The poll that follows answers [None] unless no task is marked running
    and the head of the queue carries [id]. When no queued task carries
    [id], every poll for [id] answers [None] after any further
    submissions and polls that do not submit a coroutine of identity
    [id]. *)
Theorem cached_result_claimed_once (env : Env) (id : Z) (s : State)
    (r : Result) :
  cached id s = Some r ->
  let p := get_pending_task_result env id s in
  fst p = result_value r /\
  results (snd p) =
    List.filter (fun item => negb (bool_decide (result_id item = id)))
                (results s) /\
  cached id (snd p) = None /\
  tasks (snd p) = tasks s /\ running (snd p) = running s /\
  trace (snd p) = trace s /\
  (forall env',
     fst (get_pending_task_result env' id (snd p)) <> VNone ->
     running s = false /\
     exists t rest, tasks s = t :: rest /\ task_id t = id) /\
  (id ∉ live_ids s ->
   forall ops env',
     id ∉ coro_id <$> submitted ops ->
     fst (get_pending_task_result env' id (snd (run_ops ops (snd p)))) = VNone).
Proof.
  intros Hc p. unfold p. rewrite (poll_cached env id s r Hc).
  cbn [fst snd results tasks running trace set_results].
  assert (Hgone : id ∉ result_id <$>
            List.filter (fun item => negb (bool_decide (result_id item = id)))
                        (results s)) by apply claimed_absent.
  set (s1 := set_results _ s) in *.
  assert (Hc1 : cached id s1 = None) by (apply cached_None; exact Hgone).
  split; [reflexivity |]. split; [reflexivity |]. split; [exact Hc1 |].
  split; [reflexivity |]. split; [reflexivity |]. split; [reflexivity |].
  split.
  - intros env' Hready.
    destruct (running s) eqn:Hr.
    { exfalso. apply Hready.
      now rewrite (poll_idle env' id s1 Hc1 (or_introl Hr)). }
    split; [reflexivity |].
    destruct (tasks s) as [|t rest] eqn:Ht.
    { exfalso. apply Hready.
      now rewrite (poll_idle env' id s1 Hc1 (or_intror Ht)). }
    exists t, rest. split; [reflexivity |].
    destruct (decide (task_id t = id)) as [Heq | Hne]; [exact Heq |].
    exfalso. apply Hready.
    pose proof (poll_drive env' id s1 t rest Hc1 Hr Ht) as (_ & _ & _ & Hcase).
    destruct (first_shard _ _ _ _) as [e | v].
    + apply Hcase.
    + destruct Hcase as (_ & _ & Hif).
      rewrite bool_decide_eq_false_2 in Hif by congruence. apply Hif.
  - intros Hlive ops env' Hsub.
    destruct (run_ops_unknown id ops s1) as [H1 H2];
      [now split | exact Hsub |].
    now apply poll_unknown.
Qed.

Lemma cached_result_claimed_once_witness :
  cached 1 one_cached = Some {| result_id := 1; result_value := VObj "a" |} /\
  fst (get_pending_task_result echo 1 one_cached) = VObj "a" /\
  fst (get_pending_task_result echo 1
         (snd (run_ops [Poll echo 1; Submit 3 (VObj "c") (VObj "{}"); Poll echo 4]
                 (snd (get_pending_task_result echo 1 one_cached))))) = VNone.
Proof.
  assert (Hc : cached 1 one_cached =
               Some {| result_id := 1; result_value := VObj "a" |})
    by (vm_compute; reflexivity).
  assert (Hlive : 1 ∉ live_ids one_cached) by lawful.
  pose proof (cached_result_claimed_once echo 1 one_cached _ Hc)
    as (H1 & _ & _ & _ & _ & _ & _ & H8).
  split; [exact Hc |]. split; [exact H1 |].
  apply (H8 Hlive
           [Poll echo 1; Submit 3 (VObj "c") (VObj "{}"); Poll echo 4] echo).
  lawful.
Defined.

(** X18. A poll that drives the queue and whose coroutine raises [e]
    answers [None]; the last line it prints reports the handle of the
    driven task and [e]; the cache is as it was, and no later submission
    or poll adds an entry to it under a handle it did not hold. When the
    cache held no entry under the handle of the driven task, every later
    poll for that handle answers [None], whatever the servers do. *)
Theorem failed_task_never_resolved (env : Env) (id : Z) (s : State) (t : Task)
    (rest : list Task) (e : exn) :
  cached id s = None -> running s = false -> tasks s = t :: rest ->
  fst (run_until_complete env (coro t) s) = inl e ->
  let r := get_pending_task_result env id s in
  fst r = VNone /\
  (exists before, trace (snd r) = before ++ [Print (failed_line t e)]) /\
  results (snd r) = results s /\
  forall ops,
    let s' := snd (run_ops ops (snd r)) in
    (forall h, h ∉ result_id <$> results s -> h ∉ result_id <$> results s') /\
    (task_id t ∉ result_id <$> results s ->
     forall env', fst (get_pending_task_result env' (task_id t) s') = VNone).
Proof.
  intros Hc Hr Ht Hrun r.
  pose proof (run_raises env (coro t) s e Hrun) as Hfirst.
  pose proof (poll_drive env id s t rest Hc Hr Ht) as (_ & _ & _ & Hcase).
  fold r in Hcase. rewrite Hfirst in Hcase.
  destruct Hcase as (Hans & Hres & Hrn & mid & Htr).
  split; [exact Hans |]. split.
  { eexists. rewrite Htr. rewrite app_comm_cons, app_assoc. reflexivity. }
  split; [exact Hres |].
  intros ops.
  pose proof (run_ops_while_running ops (snd r) Hrn) as (Hrn' & _ & _ & Hkeep).
  cbn zeta. rewrite Hres in Hkeep.
  split; [exact Hkeep |].
  intros Hfresh env'.
  apply (poll_while_running env' (task_id t) _ Hrn'). exact (Hkeep _ Hfresh).
Qed.

Lemma failed_task_never_resolved_witness :
  let r := get_pending_task_result refused 2 two_queued in
  fst r = VNone /\
  fst (get_pending_task_result echo 1
         (snd (run_ops [Poll echo 1; Poll echo 2] (snd r)))) = VNone.
Proof.
  assert (Hfresh : task_id (queued 1 "a") ∉ result_id <$> results two_queued).
  { intros H. vm_compute in H. now apply elem_of_nil in H. }
  assert (Hrun : fst (run_until_complete refused (coro (queued 1 "a")) two_queued)
                 = inl (RpcError "connection refused"))
    by (vm_compute; reflexivity).
  pose proof (failed_task_never_resolved refused 2 two_queued (queued 1 "a")
                [queued 2 "b"] (RpcError "connection refused")
                eq_refl eq_refl eq_refl Hrun) as (H1 & _ & _ & H4).
  cbn zeta. split; [exact H1 |].
  apply (H4 [Poll echo 1; Poll echo 2]). exact Hfresh.
Defined.
